(** * The mpc-qt logger (src/logger.cpp): buffering, flushing and sinks

    A shallow embedding of class [Logger] and of the static entry points
    around it, followed by the properties of the logging pipeline.

    Conventions of the embedding.
    - A [QString] is a Rocq [string]; every character is one code unit
      below 256 (the Latin-1 range of Unicode).
    - The member functions run on the owning context, one at a time.  They
      are written in a small state-and-writer monad [M]: the state is the
      [Logger] object, the written part is the chronological list of
      [Effect]s the call had on the outside (signals emitted, bytes handed
      to a file, queued invocations posted, files opened and closed).
    - The process (the two file-level statics, the queue of posted
      invocations and everything observable so far) is a [Process]; the
      static functions are functions on it.  [std::abort] is the
      [Aborted] outcome. *)

From Stdlib Require Import String Ascii List Bool ZArith Lia.
Import ListNotations.
Local Open Scope string_scope.
Local Open Scope list_scope.

(** ** Strings, as Qt and C treat them *)

(** The newline character written after every line. *)
Definition nl : string := String (ascii_of_nat 10) EmptyString.

(** [QChar::isSpace] on the code units below 256: U+0009..U+000D, U+0020,
    U+0085 and U+00A0. *)
Definition isSpace (c : ascii) : bool :=
  let n := nat_of_ascii c in
  Nat.eqb n 32 || (Nat.leb 9 n && Nat.leb n 13) || Nat.eqb n 133 || Nat.eqb n 160.

Fixpoint trimmedLeft (s : string) : string :=
  match s with
  | EmptyString => EmptyString
  | String c s' => if isSpace c then trimmedLeft s' else s
  end.

Fixpoint trimmedRight (s : string) : string :=
  match s with
  | EmptyString => EmptyString
  | String c s' =>
      match trimmedRight s' with
      | EmptyString => if isSpace c then EmptyString else String c EmptyString
      | t => String c t
      end
  end.

(** [QString::trimmed]: whitespace removed from the start and the end. *)
Definition trimmed (s : string) : string := trimmedRight (trimmedLeft s).

(** [QStringList::join]. *)
Definition join (sep : string) (strings : list string) : string :=
  String.concat sep strings.

(** [QString("[%1] %2").arg(prefix, message)]: both markers are replaced
    in one pass. *)
Definition arg2 (prefix message : string) : string :=
  "[" ++ prefix ++ "] " ++ message.

(** [QString("[%1] %2: %3").arg(prefix, level, message)]. *)
Definition arg3 (prefix level message : string) : string :=
  "[" ++ prefix ++ "] " ++ level ++ ": " ++ message.

(** What [fprintf]'s [%s] prints of a byte array's [data()]: the bytes
    before the first NUL. *)
Fixpoint c_str (bytes : string) : string :=
  match bytes with
  | EmptyString => EmptyString
  | String c rest =>
      if Nat.eqb (nat_of_ascii c) 0 then EmptyString else String c (c_str rest)
  end.

(** The UTF-8 codec of the file stream, on code units below 256. *)
Definition utf8Char (c : ascii) : string :=
  let n := nat_of_ascii c in
  if Nat.ltb n 128 then String c EmptyString
  else String (ascii_of_nat (192 + n / 64))
         (String (ascii_of_nat (128 + n mod 64)) EmptyString).

Fixpoint toUtf8 (s : string) : string :=
  match s with
  | EmptyString => EmptyString
  | String c s' => utf8Char c ++ toUtf8 s'
  end.

(** The UTF-8 byte-order mark, EF BB BF. *)
Definition byteOrderMark : string :=
  String (ascii_of_nat 239) (String (ascii_of_nat 187)
    (String (ascii_of_nat 191) EmptyString)).

(** ** The data model *)

(** [QTimer]: whether it is running, and its interval in milliseconds
    (a C++ [int], only ever compared here). *)
Record QTimer : Type := mkQTimer {
  isActive : bool;
  interval : Z
}.

(** [QFile]: the name it was constructed with and whether [open]
    succeeded on it. *)
Record QFile : Type := mkQFile {
  filePath : string;
  isOpen : bool
}.

(** [QTextStream] on a [QFile]: the file it writes to, and whether the
    byte-order mark is still to be generated (it goes out with the first
    bytes the stream converts). *)
Record QTextStream : Type := mkQTextStream {
  device : string;
  generateByteOrderMark : bool
}.

(** The fields of class [Logger]; a null pointer is [None]. *)
Record Logger : Type := mkLogger {
  loggingEnabled : bool;
  immediateMode : bool;
  pendingMessages : list string;
  logFileName : string;
  logFile : option QFile;
  logFileStream : option QTextStream;
  flushTimer : QTimer
}.

(** The three shapes of a queued invocation: the slot a static [log]
    names, with its arguments. *)
Inductive LogRequest : Type :=
| InvokeMakeLog (line : string)
| InvokeMakeLogPrefixed (prefix message : string)
| InvokeMakeLogDescriptively (prefix level message : string).

(** What a call does to the outside, in the order it does it. *)
Inductive Effect : Type :=
| EmitLogMessage (line : string)              (* emit logMessage(line) *)
| EmitLogMessageBuffer (lines : list string)  (* emit logMessageBuffer(lines) *)
| FileOpened (path : string)                  (* open(WriteOnly) succeeded: truncated *)
| FileWritten (path : string) (bytes : string)(* stream << ...; flush() *)
| FileClosed (path : string)                  (* an open QFile was deleted *)
| Queued (r : LogRequest)                     (* invokeMethod(.., Qt::QueuedConnection, ..) *)
| StdErr (bytes : string).                    (* fprintf(stderr, ..) *)

(** Field updates. *)
Definition set_loggingEnabled (v : bool) (l : Logger) : Logger :=
  mkLogger v (immediateMode l) (pendingMessages l) (logFileName l)
           (logFile l) (logFileStream l) (flushTimer l).
Definition set_immediateMode (v : bool) (l : Logger) : Logger :=
  mkLogger (loggingEnabled l) v (pendingMessages l) (logFileName l)
           (logFile l) (logFileStream l) (flushTimer l).
Definition set_pendingMessages (v : list string) (l : Logger) : Logger :=
  mkLogger (loggingEnabled l) (immediateMode l) v (logFileName l)
           (logFile l) (logFileStream l) (flushTimer l).
Definition set_logFileName (v : string) (l : Logger) : Logger :=
  mkLogger (loggingEnabled l) (immediateMode l) (pendingMessages l) v
           (logFile l) (logFileStream l) (flushTimer l).
Definition set_logFile (v : option QFile) (l : Logger) : Logger :=
  mkLogger (loggingEnabled l) (immediateMode l) (pendingMessages l) (logFileName l)
           v (logFileStream l) (flushTimer l).
Definition set_logFileStream (v : option QTextStream) (l : Logger) : Logger :=
  mkLogger (loggingEnabled l) (immediateMode l) (pendingMessages l) (logFileName l)
           (logFile l) v (flushTimer l).
Definition set_flushTimer (v : QTimer) (l : Logger) : Logger :=
  mkLogger (loggingEnabled l) (immediateMode l) (pendingMessages l) (logFileName l)
           (logFile l) (logFileStream l) v.

(** ** The monad of the member functions *)

Definition M (A : Type) : Type := Logger -> A * Logger * list Effect.

Definition ret {A : Type} (a : A) : M A := fun l => (a, l, []).

Definition bind {A B : Type} (m : M A) (k : A -> M B) : M B :=
  fun l =>
    let '(a, l1, es1) := m l in
    let '(b, l2, es2) := k a l1 in
    (b, l2, es1 ++ es2).

Definition this : M Logger := fun l => (l, l, []).
Definition modify (f : Logger -> Logger) : M unit := fun l => (tt, f l, []).
Definition effect (e : Effect) : M unit := fun l => (tt, l, [e]).

Declare Scope logger_scope.
Delimit Scope logger_scope with logger.
Notation "x <- c1 ;; c2" := (bind c1 (fun x => c2))
  (at level 61, c1 at next level, right associativity) : logger_scope.
Notation "c1 ;; c2" := (bind c1 (fun _ => c2))
  (at level 61, right associativity) : logger_scope.
Local Open Scope logger_scope.

(** The state and the effects of running a member function. *)
Definition stateAfter {A : Type} (m : M A) (l : Logger) : Logger := snd (fst (m l)).
Definition effectsOf {A : Type} (m : M A) (l : Logger) : list Effect := snd (m l).

(** ** The member functions *)

(** [QTimer::start], [QTimer::stop], [QTimer::setInterval]. *)
Definition timerStart : M unit :=
  modify (fun l => set_flushTimer (mkQTimer true (interval (flushTimer l))) l).
Definition timerStop : M unit :=
  modify (fun l => set_flushTimer (mkQTimer false (interval (flushTimer l))) l).
Definition timerSetInterval (msec : Z) : M unit :=
  modify (fun l => set_flushTimer (mkQTimer (isActive (flushTimer l)) msec) l).

(** [*logFileStream << text; logFileStream->flush();] on the stream [s]:
    the text goes to the file in UTF-8, after the byte-order mark when it
    is the first thing the stream writes. *)
Definition streamWrite (s : QTextStream) (text : string) : M unit :=
  effect (FileWritten (device s)
            ((if generateByteOrderMark s then byteOrderMark else "") ++ toUtf8 text)) ;;
  modify (set_logFileStream (Some (mkQTextStream (device s) false))).

(** [Logger::log(prefix, message)] and [Logger::logs(prefix, strings)]
    called from a member function: [singleton()] is the object the member
    runs on, so the invocation is posted. *)
Definition invokeMethod (r : LogRequest) : M unit := effect (Queued r).

(** [Logger::flushMessages]. *)
Definition flushMessages : M unit :=
  l <- this ;;
  match pendingMessages l with
  | [] => ret tt
  | _ :: _ =>
      match logFileStream l with
      | Some s => streamWrite s (join nl (pendingMessages l) ++ nl)
      | None => ret tt
      end ;;
      effect (EmitLogMessageBuffer (pendingMessages l)) ;;
      modify (set_pendingMessages [])
  end.

(** [Logger::makeLog]. *)
Definition makeLog (line : string) : M unit :=
  l <- this ;;
  if negb (loggingEnabled l) then ret tt
  else
    let line := trimmed line in
    if immediateMode l then
      effect (EmitLogMessage line) ;;
      match logFileStream l with
      | Some s => streamWrite s (line ++ nl)
      | None => ret tt
      end
    else
      modify (fun l => set_pendingMessages (pendingMessages l ++ [line]) l).

(** [Logger::makeLogPrefixed] and [Logger::makeLogDescriptively]. *)
Definition makeLogPrefixed (prefix message : string) : M unit :=
  makeLog (arg2 prefix message).

Definition makeLogDescriptively (prefix level message : string) : M unit :=
  makeLog (arg3 prefix level message).

(** [Logger::setLogFile].  [opened] is what [logFile->open(QFile::WriteOnly)]
    answers when the call gets as far as asking. *)
Definition setLogFile (fileName : string) (opened : bool) : M unit :=
  l <- this ;;
  if String.eqb (logFileName l) fileName then ret tt
  else
    modify (set_logFileName fileName) ;;
    if String.eqb fileName "" then
      invokeMethod (InvokeMakeLogPrefixed "logger" "log file closed") ;;
      modify (set_logFileStream None) ;;
      match logFile l with
      | Some f =>
          (if isOpen f then effect (FileClosed (filePath f)) else ret tt) ;;
          modify (set_logFile None)
      | None => ret tt
      end
    else
      modify (set_logFile (Some (mkQFile fileName opened))) ;;
      if negb opened then ret tt
      else
        effect (FileOpened fileName) ;;
        l' <- this ;;
        invokeMethod (InvokeMakeLogPrefixed "logger"
                        (join " " ["log file"; logFileName l'; "opened for writing"])) ;;
        modify (set_logFileStream (Some (mkQTextStream fileName true))).

(** [Logger::setLoggingEnabled]. *)
Definition setLoggingEnabled (enabled : bool) : M unit :=
  l <- this ;;
  if enabled && negb (loggingEnabled l) then
    modify (set_loggingEnabled true) ;;
    makeLogPrefixed "logger" "enabling logging" ;;
    l' <- this ;;
    if negb (immediateMode l') then timerStart else ret tt
  else if negb enabled && loggingEnabled l then
    makeLogPrefixed "logger" "disabling logging" ;;
    flushMessages ;;
    timerStop ;;
    modify (set_loggingEnabled false)
  else ret tt.

(** [Logger::setFlushTime]. *)
Definition setFlushTime (msec : Z) : M unit :=
  if (msec <=? 0)%Z then
    timerStop ;;
    l <- this ;;
    (if negb (immediateMode l) then flushMessages else ret tt) ;;
    modify (set_immediateMode true)
  else
    modify (set_immediateMode false) ;;
    timerSetInterval (Z.max 100 msec) ;;
    timerStart.

(** The timer's [timeout] signal is connected to [flushMessages]; a timer
    that is not running does not fire. *)
Definition timerTimeout : M unit :=
  l <- this ;;
  if isActive (flushTimer l) then flushMessages else ret tt.

(** The slot a queued invocation names, run with its arguments. *)
Definition dispatch (r : LogRequest) : M unit :=
  match r with
  | InvokeMakeLog line => makeLog line
  | InvokeMakeLogPrefixed prefix message => makeLogPrefixed prefix message
  | InvokeMakeLogDescriptively prefix level message =>
      makeLogDescriptively prefix level message
  end.

(** The owning context delivering queued invocations one after another,
    oldest first. *)
Fixpoint deliver (rs : list LogRequest) : M unit :=
  match rs with
  | [] => ret tt
  | r :: rs' => dispatch r ;; deliver rs'
  end.

(** The calls the owning context can be asked to run. *)
Inductive Op : Type :=
| MakeLog (line : string)
| MakeLogPrefixed (prefix message : string)
| MakeLogDescriptively (prefix level message : string)
| SetLogFile (fileName : string) (opened : bool)
| SetLoggingEnabled (enabled : bool)
| SetFlushTime (msec : Z)
| FlushMessages
| TimerTimeout.

Definition step (o : Op) : M unit :=
  match o with
  | MakeLog line => makeLog line
  | MakeLogPrefixed prefix message => makeLogPrefixed prefix message
  | MakeLogDescriptively prefix level message =>
      makeLogDescriptively prefix level message
  | SetLogFile fileName opened => setLogFile fileName opened
  | SetLoggingEnabled enabled => setLoggingEnabled enabled
  | SetFlushTime msec => setFlushTime msec
  | FlushMessages => flushMessages
  | TimerTimeout => timerTimeout
  end.

Fixpoint run (os : list Op) : M unit :=
  match os with
  | [] => ret tt
  | o :: os' => step o ;; run os'
  end.

(** The object the constructor leaves.  The constructor sets
    [immediateMode] and creates the timer (not running, interval 0); the
    pointers start null and the buffer and the file name empty.
    [enabled0] is the in-class initial value of [loggingEnabled], declared
    in logger.h. *)
Definition newLogger (enabled0 : bool) : Logger :=
  mkLogger enabled0 false [] "" None None (mkQTimer false 0).

(** ** What an effect list shows *)

(** The signals among the effects: what subscribers get. *)
Definition isSignal (e : Effect) : bool :=
  match e with
  | EmitLogMessage _ | EmitLogMessageBuffer _ => true
  | _ => false
  end.

Definition signals (es : list Effect) : list Effect := filter isSignal es.

(** The lines subscribers were handed, one by one, in order. *)
Definition deliveredLines (es : list Effect) : list string :=
  flat_map (fun e => match e with
                     | EmitLogMessage line => [line]
                     | EmitLogMessageBuffer lines => lines
                     | _ => []
                     end) es.

(** The writes to files among the effects. *)
Definition isFileWrite (e : Effect) : bool :=
  match e with
  | FileWritten _ _ => true
  | _ => false
  end.

Definition fileWrites (es : list Effect) : list Effect := filter isFileWrite es.

(** The queued invocations among the effects, in posting order. *)
Definition queuedRequests (es : list Effect) : list LogRequest :=
  flat_map (fun e => match e with Queued r => [r] | _ => [] end) es.

(** What standard error received. *)
Definition stdErrBytes (es : list Effect) : string :=
  String.concat "" (flat_map (fun e => match e with StdErr b => [b] | _ => [] end) es).

(** The bytes of the file [path] after the effects [es], from [content]:
    opening truncates, writing appends. *)
Fixpoint fileContent (path : string) (content : string) (es : list Effect) : string :=
  match es with
  | [] => content
  | FileOpened p :: es' =>
      fileContent path (if String.eqb p path then "" else content) es'
  | FileWritten p bytes :: es' =>
      fileContent path (if String.eqb p path then content ++ bytes else content) es'
  | _ :: es' => fileContent path content es'
  end.

(** ** The process around the object *)

Record Process : Type := mkProcess {
  loggerInstanceSetBefore : bool;
  loggerInstance : option Logger;
  eventQueue : list LogRequest;   (* invocations posted and not yet delivered *)
  observed : list Effect          (* every effect so far, oldest first *)
}.

Inductive Outcome : Type :=
| Running (p : Process)
| Aborted (p : Process).

(** A member function called on the instance; its queued invocations
    join the event queue. *)
Definition call (m : M unit) (p : Process) : Process :=
  match loggerInstance p with
  | None => p
  | Some l =>
      let '(_, l', es) := m l in
      mkProcess (loggerInstanceSetBefore p) (Some l')
                (eventQueue p ++ queuedRequests es) (observed p ++ es)
  end.

(** The owning context's event loop draining the queue. *)
Definition processEvents (p : Process) : Process :=
  call (deliver (eventQueue p))
       (mkProcess (loggerInstanceSetBefore p) (loggerInstance p) [] (observed p)).

Section Statics.

(** Declared outside logger.cpp: the initial [loggingEnabled] of a new
    object, and the codec behind [QString::toLocal8Bit]. *)
Variable enabled0 : bool.
Variable toLocal8Bit : string -> string.

(** [Logger::singleton]. *)
Definition singleton (p : Process) : option Logger * Process :=
  if negb (loggerInstanceSetBefore p) &&
     match loggerInstance p with None => true | Some _ => false end
  then (Some (newLogger enabled0),
        mkProcess true (Some (newLogger enabled0)) (eventQueue p) (observed p))
  else (loggerInstance p, p).

(** The body shared by the three static [Logger::log] overloads. *)
Definition post (r : LogRequest) (p : Process) : Process :=
  let '(log, p') := singleton p in
  match log with
  | None => p'
  | Some _ =>
      mkProcess (loggerInstanceSetBefore p') (loggerInstance p')
                (eventQueue p' ++ [r]) (observed p' ++ [Queued r])
  end.

(** [Logger::log(line)], [Logger::log(prefix, message)],
    [Logger::log(prefix, level, message)]. *)
Definition log (line : string) : Process -> Process :=
  post (InvokeMakeLog line).
Definition log_prefix (prefix message : string) : Process -> Process :=
  post (InvokeMakeLogPrefixed prefix message).
Definition log_prefix_level (prefix level message : string) : Process -> Process :=
  post (InvokeMakeLogDescriptively prefix level message).

(** The three [Logger::logs] overloads. *)
Definition logs (strings : list string) : Process -> Process :=
  log (join " " strings).
Definition logs_prefix (prefix : string) (strings : list string) : Process -> Process :=
  log_prefix prefix (join " " strings).
Definition logs_prefix_level (prefix level : string) (strings : list string)
  : Process -> Process :=
  log_prefix_level prefix level (join " " strings).

(** [Logger::fatalMessage]. *)
Definition fatalMessage (p : Process) : Outcome :=
  Aborted
    match loggerInstance p with
    | Some l =>
        mkProcess (loggerInstanceSetBefore p) (loggerInstance p) (eventQueue p)
          (observed p ++
           map (fun i => StdErr (c_str (toLocal8Bit i) ++ nl)) (pendingMessages l))
    | None => p
    end.

Inductive QtMsgType : Type :=
| QtDebugMsg | QtInfoMsg | QtWarningMsg | QtCriticalMsg | QtFatalMsg.

(** [loggerCallback]. *)
Definition loggerCallback (type : QtMsgType) (msg : string) (p : Process) : Outcome :=
  match type with
  | QtDebugMsg => Running (log_prefix_level "qt" "debug" msg p)
  | QtInfoMsg => Running (log_prefix_level "qt" "info" msg p)
  | QtWarningMsg => Running (log_prefix_level "qt" "warn" msg p)
  | QtCriticalMsg => Running (log_prefix_level "qt" "crit" msg p)
  | QtFatalMsg => fatalMessage (log_prefix_level "qt" "fatal" msg p)
  end.

End Statics.

(** Unfolds the member functions down to pairs. *)
Ltac unfold_members :=
  unfold stateAfter, effectsOf, step, dispatch, timerTimeout, setFlushTime,
    setLoggingEnabled, setLogFile, makeLogDescriptively, makeLogPrefixed,
    makeLog, flushMessages, invokeMethod, streamWrite, timerStart, timerStop,
    timerSetInterval, bind, ret, this, modify, effect in *.

(** ** The line a request is accepted as *)

Definition lineOf (r : LogRequest) : string :=
  trimmed match r with
          | InvokeMakeLog line => line
          | InvokeMakeLogPrefixed prefix message => arg2 prefix message
          | InvokeMakeLogDescriptively prefix level message => arg3 prefix level message
          end.

(** The bytes a stream sends to its file for [text]. *)
Definition streamBytes (s : QTextStream) (text : string) : string :=
  (if generateByteOrderMark s then byteOrderMark else "") ++ toUtf8 text.

(** ** Invariant and accounting *)

(** In immediate mode nothing is pending. *)
Definition immediateEmpty (l : Logger) : Prop :=
  immediateMode l = true -> pendingMessages l = [].

(** The lines the call [o] accepts when it starts in state [l]: the line
    of a log call made while logging is enabled, and the lifecycle line of
    a call that really switches logging on or off. *)
Definition acceptedBy (o : Op) (l : Logger) : list string :=
  match o with
  | MakeLog line => if loggingEnabled l then [trimmed line] else []
  | MakeLogPrefixed prefix message =>
      if loggingEnabled l then [trimmed (arg2 prefix message)] else []
  | MakeLogDescriptively prefix level message =>
      if loggingEnabled l then [trimmed (arg3 prefix level message)] else []
  | SetLoggingEnabled true =>
      if loggingEnabled l then [] else ["[logger] enabling logging"]
  | SetLoggingEnabled false =>
      if loggingEnabled l then ["[logger] disabling logging"] else []
  | _ => []
  end.

Fixpoint acceptedLines (os : list Op) (l : Logger) : list string :=
  match os with
  | [] => []
  | o :: os' => acceptedBy o l ++ acceptedLines os' (stateAfter (step o) l)
  end.

(** Whether [needle] occurs in [hay]. *)
Fixpoint occursIn (needle hay : string) : bool :=
  String.prefix needle hay ||
  match hay with
  | EmptyString => false
  | String _ hay' => occursIn needle hay'
  end.

(** Whether the bytes hold no NUL. *)
Fixpoint noNul (bytes : string) : bool :=
  match bytes with
  | EmptyString => true
  | String c rest => negb (Nat.eqb (nat_of_ascii c) 0) && noNul rest
  end.

(** A running timer means buffered mode; disabled logging means an empty
    buffer. *)
Definition timerBuffered (l : Logger) : Prop :=
  isActive (flushTimer l) = true -> immediateMode l = false.

Definition disabledEmpty (l : Logger) : Prop :=
  loggingEnabled l = false -> pendingMessages l = [].

(** ** Construction and destruction *)

(** [Logger::Logger]: [std::abort] ([None]) once [singleton] has made its
    instance, the new object otherwise.  The constructor leaves both
    file-level statics as they are; the message handler it installs is
    state of Qt. *)
Definition Logger_ctor (enabled0 : bool) (p : Process) : option Logger :=
  if loggerInstanceSetBefore p then None else Some (newLogger enabled0).

(** [Logger::~Logger], run on the instance: the stream is deleted (it has
    nothing unwritten, every write being flushed), the file is deleted,
    which closes it when it is open, and [loggerInstance] is reset.
    [loggerInstanceSetBefore] and the buffer are not looked at. *)
Definition Logger_dtor (p : Process) : Process :=
  match loggerInstance p with
  | None => p
  | Some l =>
      mkProcess (loggerInstanceSetBefore p) None (eventQueue p)
        (observed p ++
         match logFile l with
         | Some f => if isOpen f then [FileClosed (filePath f)] else []
         | None => []
         end)
  end.

(** The statics are consistent when an instance implies the flag, as
    [singleton], the only writer of both, leaves them. *)
Definition flagFollowsInstance (p : Process) : Prop :=
  loggerInstance p <> None -> loggerInstanceSetBefore p = true.

(** The level [loggerCallback] passes for a message type. *)
Definition levelName (type : QtMsgType) : string :=
  match type with
  | QtDebugMsg => "debug"
  | QtInfoMsg => "info"
  | QtWarningMsg => "warn"
  | QtCriticalMsg => "crit"
  | QtFatalMsg => "fatal"
  end.

(** ** The line builder *)

(** The double quote. *)
Definition quote : string := String (ascii_of_nat 34) EmptyString.

(** A [QVariant] as [LogStream::operator<<] sees it, by the first of its
    three [canConvert] tests that succeeds: a map ([toMap()], whose
    iteration is in key order), a list ([toList()]), a value with a string
    form ([toString()]), or none of these. *)
#[warnings="-register-all"]
Inductive QVariant : Type :=
| VMap (entries : list (string * QVariant))
| VList (items : list QVariant)
| VString (text : string)
| VOther.

Module LogStream.

(** The members of class [LogStream] that hold text; [stream] writes
    straight into [buffer]. *)
Record t : Type := mk {
  buffer : string;
  prefix : string;
  level : string
}.

(** [LogStream::LogStream(prefix, level)]. *)
Definition new (prefix level : string) : t := mk "" prefix level.

(** [stream << text]. *)
Definition write (text : string) (s : t) : t :=
  mk (buffer s ++ text) (prefix s) (level s).

(** [operator<<] on a C string and on a [QString]. *)
Definition shiftChars (a : string) (s : t) : t := write a s.
Definition shiftString (a : string) (s : t) : t := write a s.

(** [operator<<] on a [QVariant], with the two loops and their counters
    as the source has them. *)
Fixpoint shiftVariant (a : QVariant) (s : t) : t :=
  match a with
  | VMap entries =>
      let s := write "{" s in
      let s :=
        (fix loop (it : list (string * QVariant)) (count : Z) (s : t) : t :=
           match it with
           | [] => s
           | (key, value) :: it' =>
               let s := write (quote ++ ":") (write key (write quote s)) in
               let s := shiftVariant value s in
               let s := if (count >? 1)%Z then write ", " s else s in
               loop it' (count - 1)%Z s
           end) entries (Z.of_nat (length entries)) s in
      shiftChars "}" s
  | VList items =>
      let s := write "[" s in
      let count := Z.of_nat (length items) in
      let s :=
        (fix loop (rest : list QVariant) (i : Z) (s : t) : t :=
           match rest with
           | [] => s
           | value :: rest' =>
               let s := shiftVariant value s in
               let s := if (i <? count - 1)%Z then write ", " s else s in
               loop rest' (i + 1)%Z s
           end) items 0%Z s in
      write "]" s
  | VString text => write text s
  | VOther => write "(unserializable)" s
  end.

End LogStream.

(** What is appended to a line builder: a C string, a [QString] or a
    [QVariant]. *)
Inductive Fragment : Type :=
| Chars (a : string)
| Text (a : string)
| Variant (a : QVariant).

Definition shift (f : Fragment) (s : LogStream.t) : LogStream.t :=
  match f with
  | Chars a => LogStream.shiftChars a s
  | Text a => LogStream.shiftString a s
  | Variant a => LogStream.shiftVariant a s
  end.

(** [LogStream::~LogStream]. *)
Definition LogStream_dtor (enabled0 : bool) (s : LogStream.t) (p : Process) : Process :=
  if String.eqb (LogStream.buffer s) "" then p
  else if String.eqb (LogStream.prefix s) "" && String.eqb (LogStream.level s) "" then
    log enabled0 (LogStream.buffer s) p
  else if String.eqb (LogStream.level s) "" then
    log_prefix enabled0 (LogStream.prefix s) (LogStream.buffer s) p
  else
    log_prefix_level enabled0 (LogStream.prefix s) (LogStream.level s)
                     (LogStream.buffer s) p.

(** The text of a [QVariant] in closed form: entries and items joined by
    a comma and a space. *)
Fixpoint render (a : QVariant) : string :=
  match a with
  | VMap entries =>
      "{" ++ join ", " (map (fun '(key, value) =>
                               (quote ++ key ++ quote ++ ":" ++ render value)%string)
                            entries)
          ++ "}"
  | VList items => "[" ++ join ", " (map render items) ++ "]"
  | VString text => text
  | VOther => "(unserializable)"
  end.

Definition fragmentText (f : Fragment) : string :=
  match f with
  | Chars a => a
  | Text a => a
  | Variant a => render a
  end.

(** ** More to state the properties with *)

(** A line that [trimmed] leaves as it is. *)
Definition isTrimmed (line : string) : Prop := trimmed line = line.

(** A call other than [setLogFile]. *)
Definition keepsSink (o : Op) : bool :=
  match o with
  | SetLogFile _ _ => false
  | _ => true
  end.

(** The bytes a stream writes for the lines [lines], each ended by a
    newline: the byte-order mark first when [bom] is set, nothing at all
    for no line. *)
Definition linesBytes (bom : bool) (lines : list string) : string :=
  match lines with
  | [] => ""
  | _ :: _ =>
      (if bom then byteOrderMark else "") ++
      toUtf8 (String.concat "" (map (fun line => (line ++ nl)%string) lines))
  end.

(** An effect that is not an empty batch. *)
Definition notEmptyBatch (e : Effect) : Prop := e <> EmitLogMessageBuffer [].

(** The last character of a string. *)
Fixpoint lastChar (s : string) : option ascii :=
  match s with
  | EmptyString => None
  | String c EmptyString => Some c
  | String _ s' => lastChar s'
  end.

(** A line with no white space at either end. *)
Definition noOuterSpace (line : string) : Prop :=
  match line with
  | EmptyString => True
  | String c _ => isSpace c = false
  end /\
  match lastChar line with
  | None => True
  | Some c => isSpace c = false
  end.

Definition isNil {A : Type} (l : list A) : bool :=
  match l with
  | [] => true
  | _ :: _ => false
  end.

(** A member function that, run with a stream configured, writes to the
    stream's file exactly the lines it delivers to subscribers, and leaves
    the stream configured on the same file, its byte-order mark still to
    come only if nothing was written. *)
Definition mirrors {A : Type} (m : M A) : Prop :=
  forall (l : Logger) (s : QTextStream) (c : string),
    logFileStream l = Some s ->
    fileContent (device s) c (effectsOf m l) =
      (c ++ linesBytes (generateByteOrderMark s) (deliveredLines (effectsOf m l)))%string /\
    logFileStream (stateAfter m l) =
      Some (mkQTextStream (device s)
              (generateByteOrderMark s && isNil (deliveredLines (effectsOf m l)))).

(** The process at program start: the two statics as initialised at the
    top of logger.cpp, nothing queued, nothing observed. *)
Definition processStart : Process := mkProcess false None [] [].

(** How the line builder's destructor decorates its text. *)
Definition decorated (prefix level text : string) : string :=
  if String.eqb level "" then
    if String.eqb prefix "" then text else arg2 prefix text
  else arg3 prefix level text.

(** * Properties *)

(** ** Running the monad *)

Lemma stateAfter_bind {A B : Type} (m : M A) (k : A -> M B) (l : Logger) :
  stateAfter (bind m k) l = stateAfter (k (fst (fst (m l)))) (stateAfter m l).
Proof.
  unfold stateAfter, bind.
  destruct (m l) as [[a l1] es1]; simpl.
  destruct (k a l1) as [[b l2] es2]; reflexivity.
Qed.

Lemma effectsOf_bind {A B : Type} (m : M A) (k : A -> M B) (l : Logger) :
  effectsOf (bind m k) l =
  effectsOf m l ++ effectsOf (k (fst (fst (m l)))) (stateAfter m l).
Proof.
  unfold effectsOf, stateAfter, bind.
  destruct (m l) as [[a l1] es1]; simpl.
  destruct (k a l1) as [[b l2] es2]; reflexivity.
Qed.

(** A member function returns nothing but its state and its effects. *)
Lemma run_unit (m : M unit) (l : Logger) :
  m l = (tt, stateAfter m l, effectsOf m l).
Proof.
  unfold stateAfter, effectsOf.
  destruct (m l) as [[[] l1] es]; reflexivity.
Qed.

Lemma stateAfter_run_cons (o : Op) (os : list Op) (l : Logger) :
  stateAfter (run (o :: os)) l = stateAfter (run os) (stateAfter (step o) l).
Proof. simpl. rewrite stateAfter_bind. reflexivity. Qed.

Lemma effectsOf_run_cons (o : Op) (os : list Op) (l : Logger) :
  effectsOf (run (o :: os)) l =
  effectsOf (step o) l ++ effectsOf (run os) (stateAfter (step o) l).
Proof. simpl. rewrite effectsOf_bind. reflexivity. Qed.

Lemma stateAfter_deliver_cons (r : LogRequest) (rs : list LogRequest) (l : Logger) :
  stateAfter (deliver (r :: rs)) l = stateAfter (deliver rs) (stateAfter (dispatch r) l).
Proof. simpl. rewrite stateAfter_bind. reflexivity. Qed.

Lemma effectsOf_deliver_cons (r : LogRequest) (rs : list LogRequest) (l : Logger) :
  effectsOf (deliver (r :: rs)) l =
  effectsOf (dispatch r) l ++ effectsOf (deliver rs) (stateAfter (dispatch r) l).
Proof. simpl. rewrite effectsOf_bind. reflexivity. Qed.

Lemma signals_app (es1 es2 : list Effect) :
  signals (es1 ++ es2) = signals es1 ++ signals es2.
Proof. apply filter_app. Qed.

Lemma fileWrites_app (es1 es2 : list Effect) :
  fileWrites (es1 ++ es2) = fileWrites es1 ++ fileWrites es2.
Proof. apply filter_app. Qed.

Lemma deliveredLines_app (es1 es2 : list Effect) :
  deliveredLines (es1 ++ es2) = deliveredLines es1 ++ deliveredLines es2.
Proof. apply flat_map_app. Qed.

Lemma queuedRequests_app (es1 es2 : list Effect) :
  queuedRequests (es1 ++ es2) = queuedRequests es1 ++ queuedRequests es2.
Proof. apply flat_map_app. Qed.

(** [flushMessages], case by case. *)
Lemma flushMessages_empty (l : Logger) :
  pendingMessages l = [] -> flushMessages l = (tt, l, []).
Proof. intros H. unfold_members. rewrite H. reflexivity. Qed.

Lemma flushMessages_nonempty (l : Logger) :
  pendingMessages l <> [] ->
  flushMessages l =
  (tt,
   set_pendingMessages []
     match logFileStream l with
     | Some s => set_logFileStream (Some (mkQTextStream (device s) false)) l
     | None => l
     end,
   match logFileStream l with
   | Some s => [FileWritten (device s) (streamBytes s (join nl (pendingMessages l) ++ nl))]
   | None => []
   end ++ [EmitLogMessageBuffer (pendingMessages l)]).
Proof.
  intros H. unfold_members. unfold streamBytes.
  destruct (pendingMessages l) as [|m ms] eqn:E; [congruence|].
  destruct (logFileStream l) as [s|]; simpl; rewrite ?E; reflexivity.
Qed.

Lemma flushMessages_clears (l : Logger) :
  pendingMessages (stateAfter flushMessages l) = [].
Proof.
  destruct (pendingMessages l) as [|m ms] eqn:E.
  - unfold stateAfter. rewrite (flushMessages_empty l E). exact E.
  - unfold stateAfter. rewrite flushMessages_nonempty by congruence. reflexivity.
Qed.

(** [dispatch] while logging is enabled, in either mode. *)
Lemma dispatch_buffered (r : LogRequest) (l : Logger) :
  loggingEnabled l = true -> immediateMode l = false ->
  dispatch r l = (tt, set_pendingMessages (pendingMessages l ++ [lineOf r]) l, []).
Proof.
  intros He Hi. destruct r; unfold_members; unfold lineOf; rewrite He, Hi; reflexivity.
Qed.

Lemma dispatch_immediate (r : LogRequest) (l : Logger) :
  loggingEnabled l = true -> immediateMode l = true ->
  dispatch r l =
  (tt,
   match logFileStream l with
   | Some s => set_logFileStream (Some (mkQTextStream (device s) false)) l
   | None => l
   end,
   EmitLogMessage (lineOf r) ::
   match logFileStream l with
   | Some s => [FileWritten (device s) (streamBytes s (lineOf r ++ nl))]
   | None => []
   end).
Proof.
  intros He Hi.
  destruct r; unfold_members; unfold lineOf, streamBytes; rewrite He, Hi; simpl;
    destruct (logFileStream l); reflexivity.
Qed.

(** C6.  While logging is disabled a log request of any of the three
    shapes is dropped: the call returns normally, the logger is exactly as
    it was (nothing joins [pendingMessages]), and it has no effect at all
    (no signal, no byte to the file). *)
Theorem disabled_request_is_dropped :
  forall (r : LogRequest) (l : Logger),
    loggingEnabled l = false ->
    dispatch r l = (tt, l, []).
Proof.
  intros r l H. destruct r; unfold_members; rewrite H; reflexivity.
Qed.

Lemma disabled_request_is_dropped_witness :
  loggingEnabled (newLogger false) = false /\
  dispatch (InvokeMakeLogPrefixed "qt" "hello") (newLogger false)
  = (tt, newLogger false, []).
Proof.
  split; [reflexivity|].
  apply (disabled_request_is_dropped (InvokeMakeLogPrefixed "qt" "hello") (newLogger false)).
  reflexivity.
Defined.

(** ** Idempotence of the logging switch *)

(** C9.  [setLoggingEnabled] with the value logging already has changes
    nothing and emits nothing, at [true] and at [false]; so the second of
    two equal calls in a row is a no-op, and the two calls together leave
    the state and the effects of one. *)
Theorem setLoggingEnabled_idempotent :
  forall (b : bool) (l : Logger),
    (loggingEnabled l = b -> setLoggingEnabled b l = (tt, l, [])) /\
    (let l1 := stateAfter (setLoggingEnabled b) l in
     loggingEnabled l1 = b /\
     setLoggingEnabled b l1 = (tt, l1, [])) /\
    (setLoggingEnabled b ;; setLoggingEnabled b) l = setLoggingEnabled b l.
Proof.
  intros b l.
  assert (Hsame : forall l0, loggingEnabled l0 = b -> setLoggingEnabled b l0 = (tt, l0, [])).
  { intros l0 H. unfold setLoggingEnabled, bind, this. simpl.
    rewrite H. destruct b; reflexivity. }
  assert (Hset : loggingEnabled (stateAfter (setLoggingEnabled b) l) = b).
  { destruct l as [en im pend name f st [act iv]].
    destruct b, en, im, pend, st; reflexivity. }
  split; [apply Hsame|]. split.
  - split; [exact Hset|]. apply Hsame, Hset.
  - unfold bind at 1.
    rewrite (run_unit (setLoggingEnabled b) l).
    rewrite (Hsame _ Hset). rewrite app_nil_r. reflexivity.
Qed.

Lemma setLoggingEnabled_idempotent_witness :
  let l := mkLogger true false ["m1"] "" None None (mkQTimer true 1000) in
  loggingEnabled l = true /\ setLoggingEnabled true l = (tt, l, []).
Proof.
  split; [reflexivity|].
  exact (proj1 (setLoggingEnabled_idempotent true
                  (mkLogger true false ["m1"] "" None None (mkQTimer true 1000)))
               eq_refl).
Defined.

(** ** The immediate-mode invariant *)

Lemma immediateEmpty_step (o : Op) (l : Logger) :
  immediateEmpty l -> immediateEmpty (stateAfter (step o) l).
Proof.
  unfold immediateEmpty.
  destruct l as [en im pend name f st [act iv]]; simpl.
  intros H.
  destruct im; [specialize (H eq_refl); subst pend | clear H].
  - destruct o as [line|prefix message|prefix level message|fileName opened|[]|msec| |];
      unfold_members; simpl.
    + destruct en; simpl; try destruct st; simpl; auto.
    + destruct en; simpl; try destruct st; simpl; auto.
    + destruct en; simpl; try destruct st; simpl; auto.
    + destruct (String.eqb name fileName); simpl; auto.
      destruct (String.eqb fileName ""); simpl.
      * destruct f as [[fp []]|]; simpl; auto.
      * destruct opened; simpl; auto.
    + destruct en; simpl; try destruct st; simpl; auto.
    + destruct en; simpl; try destruct st; simpl; auto.
    + destruct (msec <=? 0)%Z; simpl; auto.
    + auto.
    + destruct act; simpl; auto.
  - destruct o as [line|prefix message|prefix level message|fileName opened|[]|msec| |];
      unfold_members; simpl.
    + destruct en; simpl; discriminate.
    + destruct en; simpl; discriminate.
    + destruct en; simpl; discriminate.
    + destruct (String.eqb name fileName); simpl; try discriminate.
      destruct (String.eqb fileName ""); simpl.
      * destruct f as [[fp []]|]; simpl; discriminate.
      * destruct opened; simpl; discriminate.
    + destruct en; simpl; discriminate.
    + destruct en; simpl; try discriminate.
      destruct pend, st; simpl; discriminate.
    + destruct (msec <=? 0)%Z; simpl; [|discriminate].
      destruct pend, st; reflexivity.
    + destruct pend, st; simpl; discriminate.
    + destruct act; simpl; try discriminate. destruct pend, st; simpl; discriminate.
Qed.

Lemma immediateEmpty_run (os : list Op) :
  forall l : Logger, immediateEmpty l -> immediateEmpty (stateAfter (run os) l).
Proof.
  induction os as [|o os IH]; intros l H.
  - exact H.
  - rewrite stateAfter_run_cons. apply IH, immediateEmpty_step, H.
Qed.

(** C10.  From the object the constructor leaves (buffered mode, empty
    buffer; whichever value [loggingEnabled] starts with), after every
    sequence of calls of [makeLog], [makeLogPrefixed],
    [makeLogDescriptively], [setLogFile], [setLoggingEnabled],
    [setFlushTime], [flushMessages] and timer ticks: whenever
    [immediateMode] is set, [pendingMessages] is empty. *)
Theorem immediate_mode_buffer_is_empty :
  forall (enabled0 : bool) (os : list Op),
    let l := stateAfter (run os) (newLogger enabled0) in
    immediateMode l = true -> pendingMessages l = [].
Proof.
  intros enabled0 os. apply (immediateEmpty_run os (newLogger enabled0)).
  intros H; discriminate H.
Qed.

Lemma immediate_mode_buffer_is_empty_witness :
  let l := stateAfter (run [SetLoggingEnabled true; MakeLog "a"; SetFlushTime 0;
                            MakeLog "b"]) (newLogger false) in
  immediateMode l = true /\ pendingMessages l = [].
Proof.
  split; [reflexivity|].
  apply (immediate_mode_buffer_is_empty false
           [SetLoggingEnabled true; MakeLog "a"; SetFlushTime 0; MakeLog "b"]).
  reflexivity.
Defined.

(** ** Every accepted line is delivered once *)

(** One call: what was pending and what the call accepts is, in order,
    what the call delivers followed by what is pending after it. *)
Lemma accounting_step (o : Op) (l : Logger) :
  immediateEmpty l ->
  pendingMessages l ++ acceptedBy o l =
  deliveredLines (effectsOf (step o) l) ++ pendingMessages (stateAfter (step o) l).
Proof.
  unfold immediateEmpty.
  destruct l as [en im pend name f st [act iv]]; simpl.
  intros H.
  destruct im; [specialize (H eq_refl); subst pend | clear H].
  - destruct o as [line|prefix message|prefix level message|fileName opened|[]|msec| |];
      unfold_members; simpl.
    + destruct en; simpl; try destruct st; reflexivity.
    + destruct en; simpl; try destruct st; reflexivity.
    + destruct en; simpl; try destruct st; reflexivity.
    + destruct (String.eqb name fileName); simpl; auto.
      destruct (String.eqb fileName ""); simpl.
      * destruct f as [[fp []]|]; reflexivity.
      * destruct opened; reflexivity.
    + destruct en; simpl; try destruct st; reflexivity.
    + destruct en; simpl; try destruct st; reflexivity.
    + destruct (msec <=? 0)%Z; reflexivity.
    + reflexivity.
    + destruct act; reflexivity.
  - destruct o as [line|prefix message|prefix level message|fileName opened|[]|msec| |];
      unfold_members; simpl.
    + destruct en; simpl; rewrite ?app_nil_r; reflexivity.
    + destruct en; simpl; rewrite ?app_nil_r; reflexivity.
    + destruct en; simpl; rewrite ?app_nil_r; reflexivity.
    + destruct (String.eqb name fileName); simpl; rewrite ?app_nil_r; auto.
      destruct (String.eqb fileName ""); simpl.
      * destruct f as [[fp []]|]; simpl; rewrite ?app_nil_r; reflexivity.
      * destruct opened; simpl; rewrite ?app_nil_r; reflexivity.
    + destruct en; simpl; rewrite ?app_nil_r; reflexivity.
    + destruct en; simpl; rewrite ?app_nil_r; try reflexivity.
      destruct pend, st; simpl; rewrite ?app_nil_r; reflexivity.
    + destruct (msec <=? 0)%Z; simpl; rewrite ?app_nil_r; try reflexivity.
      destruct pend, st; simpl; rewrite ?app_nil_r; reflexivity.
    + destruct pend, st; simpl; rewrite ?app_nil_r; reflexivity.
    + destruct act; simpl; rewrite ?app_nil_r; try reflexivity.
      destruct pend, st; simpl; rewrite ?app_nil_r; reflexivity.
Qed.

(** Any sequence of calls: no accepted line is lost, none is delivered
    twice, and the order of acceptance is the order of delivery. *)
Lemma accounting_run (os : list Op) :
  forall l : Logger,
    immediateEmpty l ->
    pendingMessages l ++ acceptedLines os l =
    deliveredLines (effectsOf (run os) l) ++ pendingMessages (stateAfter (run os) l).
Proof.
  induction os as [|o os IH]; intros l H.
  - simpl. rewrite app_nil_r. reflexivity.
  - rewrite stateAfter_run_cons, effectsOf_run_cons, deliveredLines_app.
    simpl acceptedLines.
    rewrite app_assoc, (accounting_step o l H), <- !app_assoc.
    f_equal. apply IH, immediateEmpty_step, H.
Qed.

(** ** Switching logging off *)

(** [setLoggingEnabled(false)] with logging enabled: what subscribers get,
    the state it leaves, and what later calls can deliver. *)
Lemma setLoggingEnabled_false_cases :
  forall l : Logger,
    loggingEnabled l = true ->
    let l' := stateAfter (setLoggingEnabled false) l in
    let es := effectsOf (setLoggingEnabled false) l in
    signals es =
      (if immediateMode l
       then EmitLogMessage "[logger] disabling logging" ::
            match pendingMessages l with
            | [] => []
            | _ :: _ => [EmitLogMessageBuffer (pendingMessages l)]
            end
       else [EmitLogMessageBuffer (pendingMessages l ++ ["[logger] disabling logging"])]) /\
    deliveredLines es =
      (if immediateMode l
       then "[logger] disabling logging" :: pendingMessages l
       else pendingMessages l ++ ["[logger] disabling logging"]) /\
    pendingMessages l' = [] /\
    isActive (flushTimer l') = false /\
    loggingEnabled l' = false /\
    (forall old : list string,
        stateAfter (setLoggingEnabled false) (set_pendingMessages old l) = l') /\
    (forall os : list Op,
        deliveredLines (effectsOf (run os) l') ++ pendingMessages (stateAfter (run os) l')
        = acceptedLines os l').
Proof.
  intros l He l' es.
  assert (Hp : pendingMessages l' = []).
  { subst l'. destruct l as [en im pend name f st [act iv]]; simpl in He; subst en.
    destruct im, pend, st; reflexivity. }
  repeat split.
  - subst es. destruct l as [en im pend name f st [act iv]]; simpl in He; subst en.
    destruct im, pend, st; reflexivity.
  - subst es. destruct l as [en im pend name f st [act iv]]; simpl in He; subst en.
    destruct im, pend, st; simpl; rewrite ?app_nil_r; reflexivity.
  - exact Hp.
  - subst l'. destruct l as [en im pend name f st [act iv]]; simpl in He; subst en.
    destruct im, pend, st; reflexivity.
  - subst l'. destruct l as [en im pend name f st [act iv]]; simpl in He; subst en.
    destruct im, pend, st; reflexivity.
  - intros old. subst l'.
    destruct l as [en im pend name f st [act iv]]; simpl in He; subst en.
    destruct im, pend, old, st; reflexivity.
  - intros os. symmetry.
    rewrite <- (accounting_run os l'); [rewrite Hp; reflexivity|].
    intros _. exact Hp.
Qed.

(** ** Changing the flush interval *)

(** [setFlushTime] in any state where immediate mode has an empty
    buffer. *)
Lemma setFlushTime_cases (l : Logger) (msec : Z) :
  immediateEmpty l ->
  let l' := stateAfter (setFlushTime msec) l in
  let es := effectsOf (setFlushTime msec) l in
  ((msec <= 0)%Z ->
     isActive (flushTimer l') = false /\
     immediateMode l' = true /\
     pendingMessages l' = [] /\
     signals es = match pendingMessages l with
                  | [] => []
                  | _ :: _ => [EmitLogMessageBuffer (pendingMessages l)]
                  end) /\
  ((msec > 0)%Z ->
     immediateMode l' = false /\
     flushTimer l' = mkQTimer true (Z.max 100 msec) /\
     pendingMessages l' = pendingMessages l /\
     es = [] /\
     ((msec <= 100)%Z -> setFlushTime msec l = setFlushTime 100 l)) /\
  setFlushTime 50 l = setFlushTime 100 l /\
  deliveredLines es ++ pendingMessages l' = pendingMessages l.
Proof.
  intros H l' es. subst l' es.
  unfold immediateEmpty in H.
  destruct l as [en im pend name f st [act iv]]; simpl in H.
  repeat split.
  - unfold_members; simpl.
    destruct (Z.leb_spec msec 0); [|lia]. destruct im; simpl; auto.
    destruct pend, st; reflexivity.
  - unfold_members; simpl.
    destruct (Z.leb_spec msec 0); [|lia]. destruct im; simpl; auto.
    destruct pend, st; reflexivity.
  - unfold_members; simpl.
    destruct (Z.leb_spec msec 0); [|lia]. destruct im; simpl; auto.
    destruct pend, st; reflexivity.
  - unfold_members; simpl.
    destruct (Z.leb_spec msec 0); [|lia]. destruct im; simpl.
    + rewrite (H eq_refl). reflexivity.
    + destruct pend, st; reflexivity.
  - unfold_members; simpl. destruct (Z.leb_spec msec 0); [lia|]. reflexivity.
  - unfold_members; simpl. destruct (Z.leb_spec msec 0); [lia|]. reflexivity.
  - unfold_members; simpl. destruct (Z.leb_spec msec 0); [lia|]. reflexivity.
  - unfold_members; simpl. destruct (Z.leb_spec msec 0); [lia|]. reflexivity.
  - intros Hle. unfold_members; simpl. destruct (Z.leb_spec msec 0); [lia|].
    simpl. replace (Z.max 100 msec) with 100%Z by lia. reflexivity.
  - unfold_members; simpl.
    destruct (Z.leb_spec msec 0).
    + destruct im; simpl.
      * rewrite (H eq_refl). reflexivity.
      * destruct pend, st; simpl; rewrite ?app_nil_r; reflexivity.
    + reflexivity.
Qed.

(** ** Buffered mode: the batch is the calls, in order *)

Lemma deliver_buffered (rs : list LogRequest) :
  forall l : Logger,
    loggingEnabled l = true -> immediateMode l = false ->
    deliver rs l = (tt, set_pendingMessages (pendingMessages l ++ map lineOf rs) l, []).
Proof.
  induction rs as [|r rs IH]; intros l He Hi.
  - simpl. rewrite app_nil_r. destruct l; reflexivity.
  - simpl deliver. unfold bind.
    rewrite (dispatch_buffered r l He Hi).
    rewrite IH by (destruct l; assumption).
    destruct l; simpl. rewrite <- app_assoc. reflexivity.
Qed.

Lemma singleton_existing (enabled0 : bool) (p : Process) (l : Logger) :
  loggerInstance p = Some l -> singleton enabled0 p = (Some l, p).
Proof.
  intros H. unfold singleton. rewrite H, andb_false_r. reflexivity.
Qed.

(** A static [log] call made while the instance exists queues its request
    behind the ones queued before, and does nothing else. *)
Lemma post_existing (enabled0 : bool) (r : LogRequest) (p : Process) (l : Logger) :
  loggerInstance p = Some l ->
  post enabled0 r p =
  mkProcess (loggerInstanceSetBefore p) (Some l) (eventQueue p ++ [r])
            (observed p ++ [Queued r]).
Proof.
  intros H. unfold post. rewrite (singleton_existing enabled0 p l H), H. reflexivity.
Qed.

Lemma post_all_existing (enabled0 : bool) (rs : list LogRequest) :
  forall (p : Process) (l : Logger),
    loggerInstance p = Some l ->
    fold_left (fun q r => post enabled0 r q) rs p =
    mkProcess (loggerInstanceSetBefore p) (Some l) (eventQueue p ++ rs)
              (observed p ++ map Queued rs).
Proof.
  induction rs as [|r rs IH]; intros p l H.
  - simpl. rewrite !app_nil_r. destruct p; simpl in *; subst; reflexivity.
  - simpl. rewrite (post_existing enabled0 r p l H).
    rewrite (IH (mkProcess (loggerInstanceSetBefore p) (Some l) (eventQueue p ++ [r])
                   (observed p ++ [Queued r])) l eq_refl).
    simpl. rewrite <- !app_assoc. reflexivity.
Qed.

Lemma signals_Queued (rs : list LogRequest) : signals (map Queued rs) = [].
Proof. induction rs; simpl; auto. Qed.

Lemma queuedRequests_Queued (rs : list LogRequest) : queuedRequests (map Queued rs) = rs.
Proof. induction rs; simpl; congruence. Qed.

(** C1.  Logging enabled, buffered mode.  Log calls of any of the three
    shapes are made through the static entry points, in the order [rs],
    and the owning context delivers them.  Nothing reaches subscribers
    until the flush; the buffer then holds what was pending before followed
    by the lines of the calls in call order.  The next [flushMessages]
    delivers exactly that sequence as one batch (to the file first, when a
    sink is configured), and leaves [pendingMessages] empty; from an empty
    buffer the batch is exactly the lines of the calls. *)
Theorem buffered_batch_keeps_call_order :
  forall (enabled0 : bool) (rs : list LogRequest) (p : Process) (l : Logger),
    loggerInstance p = Some l ->
    loggingEnabled l = true ->
    immediateMode l = false ->
    eventQueue p = [] ->
    let batch := pendingMessages l ++ map lineOf rs in
    let p1 := processEvents (fold_left (fun q r => post enabled0 r q) rs p) in
    let p2 := call flushMessages p1 in
    loggerInstance p1 = Some (set_pendingMessages batch l) /\
    eventQueue p1 = [] /\
    signals (observed p1) = signals (observed p) /\
    observed p2 =
      observed p1 ++
      match batch with
      | [] => []
      | _ :: _ =>
          match logFileStream l with
          | Some s => [FileWritten (device s) (streamBytes s (join nl batch ++ nl))]
          | None => []
          end ++ [EmitLogMessageBuffer batch]
      end /\
    (exists l2 : Logger, loggerInstance p2 = Some l2 /\ pendingMessages l2 = []) /\
    (pendingMessages l = [] -> batch = map lineOf rs).
Proof.
  intros enabled0 rs p l Hl He Hi Hq batch p1 p2.
  assert (E1 : p1 = mkProcess (loggerInstanceSetBefore p)
                      (Some (set_pendingMessages batch l)) []
                      (observed p ++ map Queued rs)).
  { subst p1. rewrite (post_all_existing enabled0 rs p l Hl).
    unfold processEvents, call. simpl. rewrite Hq. simpl.
    rewrite (deliver_buffered rs l He Hi). simpl. rewrite app_nil_r. reflexivity. }
  split; [rewrite E1; reflexivity|].
  split; [rewrite E1; reflexivity|].
  split; [rewrite E1; simpl; rewrite signals_app, signals_Queued, app_nil_r; reflexivity|].
  split; [|split].
  - subst p2. rewrite E1. unfold call. simpl loggerInstance.
    destruct batch as [|m ms] eqn:Eb.
    + rewrite flushMessages_empty by reflexivity. simpl. reflexivity.
    + rewrite flushMessages_nonempty by (simpl; discriminate).
      simpl. reflexivity.
  - subst p2. rewrite E1. unfold call. simpl loggerInstance.
    rewrite (run_unit flushMessages). eexists. split; [reflexivity|].
    apply flushMessages_clears.
  - intros H0. subst batch. rewrite H0. reflexivity.
Qed.

Lemma buffered_batch_keeps_call_order_witness :
  let l := mkLogger true false [] "" None None (mkQTimer true 1000) in
  let p := mkProcess true (Some l) [] [] in
  let rs := [InvokeMakeLog " one "; InvokeMakeLogPrefixed "mpv" "two";
             InvokeMakeLogDescriptively "qt" "warn" "three"] in
  observed (call flushMessages
              (processEvents (fold_left (fun q r => post false r q) rs p))) =
  map Queued rs ++ [EmitLogMessageBuffer ["one"; "[mpv] two"; "[qt] warn: three"]].
Proof.
  cbv zeta.
  pose proof (buffered_batch_keeps_call_order false
                [InvokeMakeLog " one "; InvokeMakeLogPrefixed "mpv" "two";
                 InvokeMakeLogDescriptively "qt" "warn" "three"]
                (mkProcess true
                   (Some (mkLogger true false [] "" None None (mkQTimer true 1000))) [] [])
                (mkLogger true false [] "" None None (mkQTimer true 1000))
                eq_refl eq_refl eq_refl eq_refl) as H.
  cbv zeta in H.
  destruct H as (_ & _ & _ & H & _).
  rewrite H. reflexivity.
Defined.

(** ** The fatal path *)

Lemma c_str_noNul (bytes : string) : noNul bytes = true -> c_str bytes = bytes.
Proof.
  induction bytes as [|c rest IH]; simpl; intros H; [reflexivity|].
  apply andb_true_iff in H. destruct H as [Hc Hr].
  destruct (Nat.eqb (nat_of_ascii c) 0); [discriminate Hc|].
  rewrite (IH Hr). reflexivity.
Qed.

Lemma signals_StdErr (f : string -> string) (ms : list string) :
  signals (map (fun i => StdErr (f i)) ms) = [].
Proof. induction ms; simpl; auto. Qed.

Lemma fileWrites_StdErr (f : string -> string) (ms : list string) :
  fileWrites (map (fun i => StdErr (f i)) ms) = [].
Proof. induction ms; simpl; auto. Qed.

(** The fatal path in general.  Whatever the state and the codec of the
    locale, [fatalMessage] ends in [std::abort].  Before that it writes to
    standard error, for each pending line in buffer order, the bytes of
    the line up to its first NUL (all of them when there is none) and a
    newline; it writes to no file, emits no signal, and leaves the object
    and the event queue alone.  Without an instance it writes nothing. *)
Lemma fatalMessage_drains_to_stderr :
  forall (toLocal8Bit : string -> string) (p : Process),
    let ms := match loggerInstance p with
              | Some l => pendingMessages l
              | None => []
              end in
    exists p' : Process,
      fatalMessage toLocal8Bit p = Aborted p' /\
      observed p' = observed p ++ map (fun i => StdErr (c_str (toLocal8Bit i) ++ nl)) ms /\
      ((forall i, In i ms -> noNul (toLocal8Bit i) = true) ->
       observed p' = observed p ++ map (fun i => StdErr (toLocal8Bit i ++ nl)) ms) /\
      signals (observed p') = signals (observed p) /\
      fileWrites (observed p') = fileWrites (observed p) /\
      loggerInstance p' = loggerInstance p /\
      eventQueue p' = eventQueue p /\
      (loggerInstance p = None -> p' = p).
Proof.
  intros toLocal8Bit p ms. unfold fatalMessage.
  destruct (loggerInstance p) as [l|] eqn:E; subst ms.
  - eexists. split; [reflexivity|]. simpl.
    split; [reflexivity|]. split; [|split; [|split; [|split; [|split]]]].
    + intros H. f_equal. apply map_ext_in. intros i Hi.
      rewrite (c_str_noNul _ (H i Hi)). reflexivity.
    + rewrite signals_app, signals_StdErr, app_nil_r. reflexivity.
    + rewrite fileWrites_app, fileWrites_StdErr, app_nil_r. reflexivity.
    + reflexivity.
    + reflexivity.
    + discriminate.
  - exists p. simpl. rewrite app_nil_r. repeat split; auto.
Qed.

(** C5 at its failing input.  Logging is enabled and the line "a", NUL,
    "b" is logged in buffered mode; the fatal path (with a codec that keeps
    these three bytes) prints the lifecycle line, then "a" and a newline:
    "b" never reaches standard error, so the pending line is not written
    whole. *)
Theorem fatalMessage_cuts_line_at_nul :
  let line := String "a" (String zero (String "b" EmptyString)) in
  let l := stateAfter (run [SetLoggingEnabled true; MakeLog line]) (newLogger false) in
  pendingMessages l = ["[logger] enabling logging"; line] /\
  exists p' : Process,
    fatalMessage (fun s => s) (mkProcess true (Some l) [] []) = Aborted p' /\
    stdErrBytes (observed p') = ("[logger] enabling logging" ++ nl ++ "a" ++ nl)%string /\
    stdErrBytes (observed p') <>
      String.concat "" (map (fun i => (i ++ nl)%string) (pendingMessages l)).
Proof.
  cbv zeta. split; [reflexivity|].
  eexists. split; [reflexivity|]. split; [reflexivity|].
  vm_compute. discriminate.
Qed.

(** ** The file sink *)

(** Without a stream a delivered request writes to no file and creates no
    stream. *)
Lemma dispatch_without_stream (r : LogRequest) (l : Logger) :
  logFileStream l = None ->
  fileWrites (effectsOf (dispatch r) l) = [] /\
  logFileStream (stateAfter (dispatch r) l) = None.
Proof.
  destruct l as [en im pend name f st [act iv]]; simpl; intros H; subst st.
  destruct r; unfold_members; simpl; destruct en, im; simpl; auto.
Qed.

Lemma deliver_without_stream (rs : list LogRequest) :
  forall l : Logger,
    logFileStream l = None ->
    fileWrites (effectsOf (deliver rs) l) = [] /\
    logFileStream (stateAfter (deliver rs) l) = None.
Proof.
  induction rs as [|r rs IH]; intros l H.
  - split; [reflexivity|exact H].
  - rewrite effectsOf_deliver_cons, stateAfter_deliver_cons, fileWrites_app.
    destruct (dispatch_without_stream r l H) as [Hw Hs].
    destruct (IH _ Hs) as [Hw' Hs'].
    rewrite Hw, Hw'. split; [reflexivity|exact Hs'].
Qed.

Lemma flushMessages_without_stream (l : Logger) :
  logFileStream l = None ->
  fileWrites (effectsOf flushMessages l) = [] /\
  logFileStream (stateAfter flushMessages l) = None.
Proof.
  destruct l as [en im pend name f st [act iv]]; simpl; intros H; subst st.
  unfold_members; simpl. destruct pend; simpl; auto.
Qed.

(** The closing call itself: the request is posted first, then the stream
    and the file are released; the call writes nothing and emits nothing. *)
Lemma setLogFile_empty (l : Logger) (opened : bool) :
  logFileName l <> "" ->
  setLogFile "" opened l =
  (tt,
   set_logFile None (set_logFileStream None (set_logFileName "" l)),
   Queued (InvokeMakeLogPrefixed "logger" "log file closed") ::
   match logFile l with
   | Some f => if isOpen f then [FileClosed (filePath f)] else []
   | None => []
   end).
Proof.
  destruct l as [en im pend name f st [act iv]]; simpl; intros H.
  unfold_members; simpl.
  destruct (String.eqb_spec name "") as [E|_]; [contradiction|].
  simpl. destruct f as [[fp []]|]; reflexivity.
Qed.

(** Closing the sink in general.  With a file sink open (under a file name,
    which is therefore not empty), [setLogFile("")] posts the "log file
    closed" request to the event queue, behind whatever is queued, and
    then releases the stream and the file at once, before the owning
    context delivers anything.  From the call through the delivery of
    everything queued no byte is written to any file.  If the queue was
    empty and logging is enabled, delivery emits the closure line as a
    [logMessage] in immediate mode, and in buffered mode makes it the
    newest pending line, left for a later flush and whatever sink is
    configured by then. *)
Lemma closing_the_sink_releases_before_delivery :
  forall (p : Process) (l : Logger) (s : QTextStream) (opened : bool),
    loggerInstance p = Some l ->
    logFileStream l = Some s ->
    logFileName l <> "" ->
    let closing := InvokeMakeLogPrefixed "logger" "log file closed" in
    let p1 := call (setLogFile "" opened) p in
    let p2 := processEvents p1 in
    eventQueue p1 = eventQueue p ++ [closing] /\
    observed p1 =
      observed p ++
      Queued closing ::
      match logFile l with
      | Some f => if isOpen f then [FileClosed (filePath f)] else []
      | None => []
      end /\
    loggerInstance p1 =
      Some (set_logFile None (set_logFileStream None (set_logFileName "" l))) /\
    fileWrites (observed p2) = fileWrites (observed p) /\
    (eventQueue p = [] -> loggingEnabled l = true ->
     exists l2 : Logger,
       loggerInstance p2 = Some l2 /\
       logFileStream l2 = None /\
       if immediateMode l
       then signals (observed p2) =
              signals (observed p) ++ [EmitLogMessage "[logger] log file closed"] /\
            pendingMessages l2 = pendingMessages l
       else signals (observed p2) = signals (observed p) /\
            pendingMessages l2 = pendingMessages l ++ ["[logger] log file closed"]).
Proof.
  intros p l s opened Hl Hs Hn closing p1 p2.
  set (l1 := set_logFile None (set_logFileStream None (set_logFileName "" l))).
  set (cl := match logFile l with
             | Some f => if isOpen f then [FileClosed (filePath f)] else []
             | None => []
             end).
  assert (Hcl : queuedRequests cl = [] /\ fileWrites cl = [] /\ signals cl = []).
  { subst cl. destruct (logFile l) as [[fp []]|]; repeat split; reflexivity. }
  destruct Hcl as (Hq & Hw & Hg).
  assert (E1 : p1 = mkProcess (loggerInstanceSetBefore p) (Some l1)
                      (eventQueue p ++ [closing]) (observed p ++ Queued closing :: cl)).
  { subst p1. unfold call. rewrite Hl, (setLogFile_empty l opened Hn).
    fold cl. fold l1. simpl. rewrite Hq. reflexivity. }
  assert (H1 : logFileStream l1 = None) by reflexivity.
  split; [rewrite E1; reflexivity|].
  split; [rewrite E1; reflexivity|].
  split; [rewrite E1; reflexivity|].
  split.
  - subst p2. rewrite E1. unfold processEvents, call. simpl.
    rewrite (run_unit (deliver (eventQueue p ++ [closing])) l1). simpl.
    destruct (deliver_without_stream (eventQueue p ++ [closing]) l1 H1) as [Hd _].
    rewrite !fileWrites_app, Hd. simpl. rewrite Hw, !app_nil_r. reflexivity.
  - intros Hq0 He. subst p2. rewrite E1, Hq0. unfold processEvents, call. simpl.
    destruct l as [en im pend name f st [act iv]]; simpl in *; subst en.
    unfold_members; simpl.
    destruct im; simpl; eexists; (split; [reflexivity|]); (split; [reflexivity|]);
      rewrite !signals_app; simpl; rewrite Hg; simpl; rewrite ?app_nil_r; split; reflexivity.
Qed.

Lemma closing_the_sink_releases_before_delivery_witness :
  let l := mkLogger true true [] "a.log" (Some (mkQFile "a.log" true))
             (Some (mkQTextStream "a.log" false)) (mkQTimer false 0) in
  let p := mkProcess true (Some l) [] [] in
  fileWrites (observed (processEvents (call (setLogFile "" false) p))) = [].
Proof.
  cbv zeta.
  assert (N : "a.log" <> "") by discriminate.
  pose proof (closing_the_sink_releases_before_delivery
                (mkProcess true
                   (Some (mkLogger true true [] "a.log" (Some (mkQFile "a.log" true))
                            (Some (mkQTextStream "a.log" false)) (mkQTimer false 0)))
                   [] [])
                (mkLogger true true [] "a.log" (Some (mkQFile "a.log" true))
                   (Some (mkQTextStream "a.log" false)) (mkQTimer false 0))
                (mkQTextStream "a.log" false) false eq_refl eq_refl N) as H.
  cbv zeta in H.
  destruct H as (_ & _ & _ & H & _).
  exact H.
Defined.

(** C2 at its failing input.  Logging is enabled and set to immediate
    mode, the sink "a.log" is opened, "hello" is logged, the sink is closed
    with the empty path, and the owning context delivers what is queued
    after each call.  The file then holds the byte-order mark, the opening
    line and "hello": the closure line, posted before the release and
    delivered after it, went to subscribers and is not in the file. *)
Theorem closure_line_is_not_in_the_file :
  let p0 := snd (singleton false (mkProcess false None [] [])) in
  let p := processEvents (call (setLogFile "" false)
            (processEvents (log false "hello"
              (processEvents (call (setLogFile "a.log" true)
                (call (setFlushTime 0) (call (setLoggingEnabled true) p0)))))))
  in
  fileContent "a.log" "" (observed p) =
    (byteOrderMark ++ "[logger] log file a.log opened for writing" ++ nl
                   ++ "hello" ++ nl)%string /\
  occursIn "log file closed" (fileContent "a.log" "" (observed p)) = false /\
  In (EmitLogMessage "[logger] log file closed") (observed p).
Proof.
  cbv zeta. split; [reflexivity|]. split; [reflexivity|].
  vm_compute. repeat (first [left; reflexivity | right]).
Qed.

(** A failed open changes the file name and the [QFile], and nothing
    else: the stream, if there was one, stays. *)
Lemma setLogFile_failed_open (l : Logger) (fileName : string) :
  fileName <> "" ->
  logFileName l <> fileName ->
  setLogFile fileName false l =
  (tt, set_logFile (Some (mkQFile fileName false)) (set_logFileName fileName l), []).
Proof.
  intros Hne Hn. unfold_members.
  destruct (String.eqb_spec (logFileName l) fileName) as [E|_]; [contradiction|].
  destruct (String.eqb_spec fileName "") as [E|_]; [contradiction|].
  reflexivity.
Qed.

(** X3.  When no sink was configured before, a failed open leaves none,
    and what is delivered or flushed afterwards writes to no file. *)
Lemma failed_open_without_sink (l : Logger) (fileName : string) (rs : list LogRequest) :
  fileName <> "" ->
  logFileName l <> fileName ->
  logFileStream l = None ->
  let l' := stateAfter (setLogFile fileName false) l in
  logFileStream l' = None /\
  fileWrites (effectsOf (deliver rs ;; flushMessages) l') = [].
Proof.
  intros Hne Hn Hs l'.
  assert (H' : logFileStream l' = None).
  { subst l'. unfold stateAfter. rewrite (setLogFile_failed_open l fileName Hne Hn).
    exact Hs. }
  split; [exact H'|].
  rewrite effectsOf_bind, fileWrites_app.
  destruct (deliver_without_stream rs l' H') as [Hw Hs'].
  destruct (flushMessages_without_stream _ Hs') as [Hf _].
  rewrite Hw, Hf. reflexivity.
Qed.

Lemma failed_open_without_sink_witness :
  let l := stateAfter (run [SetLoggingEnabled true; SetFlushTime 0]) (newLogger false) in
  fileWrites
    (effectsOf (deliver [InvokeMakeLog "x"] ;; flushMessages)
       (stateAfter (setLogFile "b.log" false) l)) = [].
Proof.
  cbv zeta.
  assert (N1 : "b.log" <> "") by discriminate.
  assert (N2 : logFileName
                 (stateAfter (run [SetLoggingEnabled true; SetFlushTime 0])
                    (newLogger false)) <> "b.log") by discriminate.
  apply (failed_open_without_sink
           (stateAfter (run [SetLoggingEnabled true; SetFlushTime 0]) (newLogger false))
           "b.log" [InvokeMakeLog "x"] N1 N2 eq_refl).
Defined.

(** C7 at its failing input.  Logging is enabled in immediate mode and the
    sink "a.log" is open; [setLogFile("b.log")] fails to open.  The stream
    on "a.log" is still configured, under the file name "b.log", and the
    next line is written to "a.log". *)
Theorem failed_open_keeps_previous_sink :
  let l := stateAfter (run [SetLoggingEnabled true; SetFlushTime 0;
                            SetLogFile "a.log" true; SetLogFile "b.log" false])
                      (newLogger false) in
  logFileName l = "b.log" /\
  logFile l = Some (mkQFile "b.log" false) /\
  logFileStream l = Some (mkQTextStream "a.log" true) /\
  effectsOf (makeLog "x") l =
    [EmitLogMessage "x"; FileWritten "a.log" (byteOrderMark ++ "x" ++ nl)].
Proof. cbv zeta. repeat split; reflexivity. Qed.

(** ** The timer *)

Lemma timerBuffered_step (o : Op) (l : Logger) :
  timerBuffered l -> timerBuffered (stateAfter (step o) l).
Proof.
  unfold timerBuffered.
  destruct l as [en im pend name f st [act iv]]; simpl.
  intros H.
  destruct o as [line|prefix message|prefix level message|fileName opened|[]|msec| |];
    unfold_members; simpl.
  - destruct en, im; simpl; try destruct st; simpl; auto.
  - destruct en, im; simpl; try destruct st; simpl; auto.
  - destruct en, im; simpl; try destruct st; simpl; auto.
  - destruct (String.eqb name fileName); simpl; auto.
    destruct (String.eqb fileName ""); simpl.
    + destruct f as [[fp []]|]; simpl; auto.
    + destruct opened; simpl; auto.
  - destruct en, im; simpl; try destruct st; simpl; auto.
  - destruct en, im; simpl; auto; destruct pend, st; simpl; discriminate.
  - destruct (msec <=? 0)%Z; simpl; auto.
    destruct im; simpl; try discriminate. destruct pend, st; simpl; discriminate.
  - destruct pend, st; simpl; auto.
  - destruct act; simpl; auto. destruct pend, st; simpl; auto.
Qed.

Lemma disabledEmpty_step (o : Op) (l : Logger) :
  disabledEmpty l -> disabledEmpty (stateAfter (step o) l).
Proof.
  unfold disabledEmpty.
  destruct l as [en im pend name f st [act iv]]; simpl.
  intros H.
  destruct en; [clear H | specialize (H eq_refl); subst pend].
  - destruct o as [line|prefix message|prefix level message|fileName opened|[]|msec| |];
      unfold_members; simpl.
    + destruct im; simpl; try destruct st; simpl; discriminate.
    + destruct im; simpl; try destruct st; simpl; discriminate.
    + destruct im; simpl; try destruct st; simpl; discriminate.
    + destruct (String.eqb name fileName); simpl; try discriminate.
      destruct (String.eqb fileName ""); simpl.
      * destruct f as [[fp []]|]; simpl; discriminate.
      * destruct opened; simpl; discriminate.
    + discriminate.
    + destruct im, pend, st; reflexivity.
    + destruct (msec <=? 0)%Z; simpl; try discriminate.
      destruct im; simpl; try discriminate. destruct pend, st; simpl; discriminate.
    + destruct pend, st; simpl; discriminate.
    + destruct act; simpl; try discriminate. destruct pend, st; simpl; discriminate.
  - destruct o as [line|prefix message|prefix level message|fileName opened|[]|msec| |];
      unfold_members; simpl; auto.
    + destruct (String.eqb name fileName); simpl; auto.
      destruct (String.eqb fileName ""); simpl.
      * destruct f as [[fp []]|]; simpl; auto.
      * destruct opened; simpl; auto.
    + destruct im; simpl; try destruct st; simpl; discriminate.
    + destruct (msec <=? 0)%Z; simpl; auto. destruct im; simpl; auto.
    + destruct act; simpl; auto.
Qed.

(** X2.  What does hold of the timer in every state the calls can reach:
    it runs only in buffered mode; and while logging is disabled the
    buffer is empty, so a tick of a timer left running delivers nothing. *)
Lemma timer_runs_only_buffered (enabled0 : bool) (os : list Op) :
  let l := stateAfter (run os) (newLogger enabled0) in
  timerBuffered l /\ disabledEmpty l /\
  (loggingEnabled l = false -> timerTimeout l = (tt, l, [])).
Proof.
  cbv zeta.
  assert (H : forall l, timerBuffered l /\ disabledEmpty l ->
                        timerBuffered (stateAfter (run os) l) /\
                        disabledEmpty (stateAfter (run os) l)).
  { induction os as [|o os IH]; intros l [Ht Hd].
    - split; assumption.
    - rewrite stateAfter_run_cons. apply IH.
      split; [apply timerBuffered_step | apply disabledEmpty_step]; assumption. }
  destruct (H (newLogger enabled0)) as [Ht Hd].
  { split; [intros E; discriminate E | intros _; reflexivity]. }
  split; [exact Ht|]. split; [exact Hd|].
  intros He. unfold timerTimeout, bind, this.
  destruct (isActive (flushTimer _)); [|reflexivity].
  rewrite flushMessages_empty by (apply Hd, He). reflexivity.
Qed.

(** C8 at its failing input.  Whatever [loggingEnabled] starts as, after
    [setLoggingEnabled(false)] and [setFlushTime(1000)] logging is
    disabled and the timer is running, at 1000 ms: [setFlushTime] starts
    it without looking at [loggingEnabled]. *)
Theorem timer_runs_while_disabled :
  forall enabled0 : bool,
    let l := stateAfter (run [SetLoggingEnabled false; SetFlushTime 1000])
                        (newLogger enabled0) in
    loggingEnabled l = false /\
    immediateMode l = false /\
    flushTimer l = mkQTimer true 1000.
Proof. intros []; cbv zeta; repeat split; reflexivity. Qed.

(** ** Accounting from construction *)

(** X1.  From the object the constructor leaves, after any sequence of
    calls: the lines accepted so far are, in order of acceptance, the lines
    delivered to subscribers so far followed by the lines still pending.
    No accepted line is lost, none is delivered twice. *)
Theorem accepted_lines_are_delivered_once :
  forall (enabled0 : bool) (os : list Op),
    let l0 := newLogger enabled0 in
    acceptedLines os l0 =
    deliveredLines (effectsOf (run os) l0) ++ pendingMessages (stateAfter (run os) l0).
Proof.
  intros enabled0 os l0.
  rewrite <- (accounting_run os l0); [reflexivity|].
  intros E; discriminate E.
Qed.

(** ** No empty batch *)

Lemma notEmptyBatch_step (o : Op) (l : Logger) :
  Forall notEmptyBatch (effectsOf (step o) l).
Proof.
  destruct l as [en im pend name f st [act iv]].
  destruct o as [line|prefix message|prefix level message|fileName opened|[]|msec| |];
    unfold_members; simpl.
  - destruct en, im; simpl; try destruct st; simpl;
      repeat constructor; discriminate.
  - destruct en, im; simpl; try destruct st; simpl;
      repeat constructor; discriminate.
  - destruct en, im; simpl; try destruct st; simpl;
      repeat constructor; discriminate.
  - destruct (String.eqb name fileName); simpl; [constructor|].
    destruct (String.eqb fileName ""); simpl.
    + destruct f as [[fp []]|]; simpl; repeat constructor; discriminate.
    + destruct opened; simpl; repeat constructor; discriminate.
  - destruct en, im; simpl; try destruct st; simpl;
      repeat constructor; discriminate.
  - destruct en; simpl; [|constructor].
    destruct im; simpl.
    + destruct pend, st; simpl; repeat constructor; discriminate.
    + destruct pend, st; simpl; repeat constructor; discriminate.
  - destruct (msec <=? 0)%Z; simpl; [|constructor].
    destruct im; simpl; [constructor|].
    destruct pend, st; simpl; repeat constructor; discriminate.
  - destruct pend, st; simpl; repeat constructor; discriminate.
  - destruct act; simpl; [|constructor].
    destruct pend, st; simpl; repeat constructor; discriminate.
Qed.

(** X4.  Whatever the state and whatever calls are made, no
    [logMessageBuffer] signal ever carries an empty batch: a flush with
    nothing pending (a timer tick after a manual flush, say) emits
    nothing. *)
Theorem no_empty_batch_is_emitted :
  forall (os : list Op) (l : Logger),
    Forall notEmptyBatch (effectsOf (run os) l).
Proof.
  induction os as [|o os IH]; intros l.
  - constructor.
  - rewrite effectsOf_run_cons. apply Forall_app. split.
    + apply notEmptyBatch_step.
    + apply IH.
Qed.

(** ** Lines are trimmed *)

Lemma trimmedRight_head (c : ascii) (s : string) :
  isSpace c = false -> exists t, trimmedRight (String c s) = String c t.
Proof.
  intros H. simpl. destruct (trimmedRight s); rewrite ?H; eauto.
Qed.

Lemma trimmedRight_idempotent (s : string) :
  trimmedRight (trimmedRight s) = trimmedRight s.
Proof.
  induction s as [|c s IH]; [reflexivity|].
  simpl. destruct (trimmedRight s) as [|d t] eqn:E.
  - destruct (isSpace c) eqn:Ec; [reflexivity|]. simpl. rewrite Ec. reflexivity.
  - simpl in IH. simpl. rewrite IH. reflexivity.
Qed.

Lemma trimmedLeft_fixed (s : string) :
  match s with
  | EmptyString => True
  | String c _ => isSpace c = false
  end ->
  trimmedLeft s = s.
Proof. destruct s as [|c s]; simpl; intros H; [reflexivity|]. rewrite H. reflexivity. Qed.

Lemma trimmedLeft_head (s : string) :
  match trimmedLeft s with
  | EmptyString => True
  | String c _ => isSpace c = false
  end.
Proof.
  induction s as [|c s IH]; simpl; [exact I|].
  destruct (isSpace c) eqn:E; [exact IH|]. simpl. exact E.
Qed.

Lemma trimmed_idempotent (s : string) : trimmed (trimmed s) = trimmed s.
Proof.
  unfold trimmed.
  pose proof (trimmedLeft_head s) as H.
  destruct (trimmedLeft s) as [|c t] eqn:E; [reflexivity|].
  destruct (trimmedRight_head c t H) as [u Hu].
  rewrite Hu. rewrite trimmedLeft_fixed by exact H.
  rewrite <- Hu. apply trimmedRight_idempotent.
Qed.

Lemma trimmedRight_last (s : string) :
  match lastChar (trimmedRight s) with
  | None => True
  | Some c => isSpace c = false
  end.
Proof.
  induction s as [|c s IH]; simpl; [exact I|].
  destruct (trimmedRight s) as [|d t] eqn:E.
  - destruct (isSpace c) eqn:Ec; simpl; [exact I|exact Ec].
  - exact IH.
Qed.

Lemma trimmed_noOuterSpace (s : string) : noOuterSpace (trimmed s).
Proof.
  unfold noOuterSpace, trimmed. split; [|apply trimmedRight_last].
  pose proof (trimmedLeft_head s) as H.
  destruct (trimmedLeft s) as [|c t]; [exact I|].
  destruct (trimmedRight_head c t H) as [u Hu]. rewrite Hu. exact H.
Qed.

Lemma acceptedBy_trimmed (o : Op) (l : Logger) :
  Forall (fun line => isTrimmed line /\ noOuterSpace line) (acceptedBy o l).
Proof.
  unfold isTrimmed.
  destruct o as [line|prefix message|prefix level message|fileName opened|[]|msec| |];
    simpl; try constructor;
    destruct (loggingEnabled l); repeat constructor;
    first [apply trimmed_idempotent | apply trimmed_noOuterSpace | reflexivity].
Qed.

Lemma acceptedLines_trimmed (os : list Op) :
  forall l : Logger,
    Forall (fun line => isTrimmed line /\ noOuterSpace line) (acceptedLines os l).
Proof.
  induction os as [|o os IH]; intros l; simpl; [constructor|].
  apply Forall_app. split; [apply acceptedBy_trimmed | apply IH].
Qed.

(** X5.  From the object the constructor leaves, after any sequence of
    calls, every line that was delivered to subscribers and every line
    still pending is trimmed: its first and its last character are not
    white space, and trimming it again changes nothing. *)
Theorem lines_are_trimmed :
  forall (enabled0 : bool) (os : list Op),
    let l0 := newLogger enabled0 in
    Forall (fun line => isTrimmed line /\ noOuterSpace line)
           (deliveredLines (effectsOf (run os) l0)) /\
    Forall (fun line => isTrimmed line /\ noOuterSpace line)
           (pendingMessages (stateAfter (run os) l0)).
Proof.
  intros enabled0 os l0.
  apply Forall_app.
  rewrite <- (accounting_run os l0) by (intros E; discriminate E).
  apply acceptedLines_trimmed.
Qed.

(** ** The timer's interval *)

(** X6.  From the object the constructor leaves, after any sequence of
    calls, the flush timer's interval is either the 0 it was created with
    (no positive flush time was ever set) or at least 100 ms: it is never
    between 1 and 99. *)
Theorem timer_interval_is_zero_or_at_least_100 :
  forall (enabled0 : bool) (os : list Op),
    let t := flushTimer (stateAfter (run os) (newLogger enabled0)) in
    (interval t = 0 \/ 100 <= interval t)%Z.
Proof.
  intros enabled0 os. cbv zeta.
  assert (H : forall l : Logger,
             (interval (flushTimer l) = 0 \/ 100 <= interval (flushTimer l))%Z ->
             (interval (flushTimer (stateAfter (run os) l)) = 0 \/
              100 <= interval (flushTimer (stateAfter (run os) l)))%Z).
  { induction os as [|o os IH]; intros l Hl; [exact Hl|].
    rewrite stateAfter_run_cons. apply IH.
    destruct l as [en im pend name f st [act iv]]; simpl in Hl.
    destruct o as [line|prefix message|prefix level message|fileName opened|[]|msec| |];
      unfold_members; simpl.
    - destruct en, im; simpl; try destruct st; simpl; exact Hl.
    - destruct en, im; simpl; try destruct st; simpl; exact Hl.
    - destruct en, im; simpl; try destruct st; simpl; exact Hl.
    - destruct (String.eqb name fileName); simpl; [exact Hl|].
      destruct (String.eqb fileName ""); simpl.
      + destruct f as [[fp []]|]; simpl; exact Hl.
      + destruct opened; simpl; exact Hl.
    - destruct en, im; simpl; try destruct st; simpl; exact Hl.
    - destruct en; simpl; [|exact Hl].
      destruct im, pend, st; simpl; exact Hl.
    - destruct (msec <=? 0)%Z; simpl.
      + destruct im; simpl; [exact Hl|]. destruct pend, st; simpl; exact Hl.
      + right. lia.
    - destruct pend, st; simpl; exact Hl.
    - destruct act; simpl; [|exact Hl]. destruct pend, st; simpl; exact Hl. }
  apply H. left. reflexivity.
Qed.

(** ** The file mirrors what subscribers get *)

Lemma append_assoc_s (a b c : string) : ((a ++ b) ++ c = a ++ (b ++ c))%string.
Proof. induction a as [|x a IH]; simpl; [reflexivity|]. rewrite IH. reflexivity. Qed.

Lemma append_nil_r_s (a : string) : (a ++ "")%string = a.
Proof. induction a as [|x a IH]; simpl; [reflexivity|]. rewrite IH. reflexivity. Qed.

Lemma toUtf8_app (a b : string) : toUtf8 (a ++ b) = (toUtf8 a ++ toUtf8 b)%string.
Proof.
  induction a as [|x a IH]; simpl; [reflexivity|].
  rewrite IH, append_assoc_s. reflexivity.
Qed.

Lemma fileContent_app (path : string) (es1 es2 : list Effect) :
  forall c : string,
    fileContent path c (es1 ++ es2) = fileContent path (fileContent path c es1) es2.
Proof.
  induction es1 as [|e es1 IH]; intros c; simpl; [reflexivity|].
  destruct e; apply IH.
Qed.

Lemma concat_lines_app (d1 d2 : list string) :
  String.concat "" (map (fun line => (line ++ nl)%string) (d1 ++ d2)) =
  (String.concat "" (map (fun line => (line ++ nl)%string) d1) ++
   String.concat "" (map (fun line => (line ++ nl)%string) d2))%string.
Proof.
  induction d1 as [|x d1 IH]; [reflexivity|].
  simpl map. destruct d1 as [|y d1].
  - simpl. destruct d2 as [|z d2]; simpl.
    + rewrite append_nil_r_s. reflexivity.
    + reflexivity.
  - change (String.concat "" ((x ++ nl)%string :: map (fun line => (line ++ nl)%string) ((y :: d1) ++ d2)))
      with ((x ++ nl) ++ "" ++
            String.concat "" (map (fun line => (line ++ nl)%string) ((y :: d1) ++ d2)))%string.
    rewrite IH. simpl. rewrite !append_assoc_s. reflexivity.
Qed.

(** The joined batch with its closing newline is the lines, each ended by
    a newline. *)
Lemma join_lines (m : string) (ms : list string) :
  (join nl (m :: ms) ++ nl)%string =
  String.concat "" (map (fun line => (line ++ nl)%string) (m :: ms)).
Proof.
  revert m. induction ms as [|x ms IH]; intros m.
  - reflexivity.
  - change (join nl (m :: x :: ms)) with (m ++ nl ++ join nl (x :: ms))%string.
    rewrite !append_assoc_s, IH.
    change (String.concat "" (map (fun line => (line ++ nl)%string) (m :: x :: ms)))
      with ((m ++ nl) ++ "" ++
            String.concat "" (map (fun line => (line ++ nl)%string) (x :: ms)))%string.
    rewrite append_assoc_s. reflexivity.
Qed.

Lemma linesBytes_app (b : bool) (d1 d2 : list string) :
  linesBytes b (d1 ++ d2) = (linesBytes b d1 ++ linesBytes (b && isNil d1) d2)%string.
Proof.
  destruct d1 as [|x d1].
  - simpl. rewrite andb_true_r. reflexivity.
  - destruct d2 as [|y d2].
    + rewrite app_nil_r. simpl. rewrite append_nil_r_s. reflexivity.
    + unfold linesBytes at 1 2 3. simpl app. simpl isNil. rewrite andb_false_r.
      change (x :: d1 ++ y :: d2) with ((x :: d1) ++ (y :: d2)).
      rewrite concat_lines_app, toUtf8_app. cbn [String.append].
      rewrite append_assoc_s. reflexivity.
Qed.

Lemma isNil_app {A : Type} (l1 l2 : list A) : isNil (l1 ++ l2) = isNil l1 && isNil l2.
Proof. destruct l1; reflexivity. Qed.

Lemma mirrors_bind {A B : Type} (m : M A) (k : A -> M B) :
  mirrors m -> (forall a, mirrors (k a)) -> mirrors (bind m k).
Proof.
  intros Hm Hk l s c Hs.
  rewrite effectsOf_bind, stateAfter_bind, deliveredLines_app, fileContent_app.
  destruct (Hm l s c Hs) as [H1 H2].
  destruct (Hk (fst (fst (m l))) _ _ (fileContent (device s) c (effectsOf m l)) H2)
    as [H3 H4].
  simpl in H3, H4. rewrite H3, H4, H1.
  rewrite linesBytes_app, isNil_app, append_assoc_s, andb_assoc. split; reflexivity.
Qed.

Lemma mirrors_silent {A : Type} (m : M A) :
  (forall l, logFileStream (stateAfter m l) = logFileStream l) ->
  (forall l, Forall (fun e => isSignal e = false /\ isFileWrite e = false /\
                              (forall p, e <> FileOpened p)) (effectsOf m l)) ->
  mirrors m.
Proof.
  intros Hst Hes l s c Hs.
  assert (H : deliveredLines (effectsOf m l) = [] /\
              fileContent (device s) c (effectsOf m l) = c).
  { specialize (Hes l). revert c. induction Hes as [|e es He _ IH]; intros c.
    - split; reflexivity.
    - destruct (IH c) as [IH1 IH2]. destruct He as (H1 & H2 & H3).
      destruct e; simpl in *; try discriminate; try (split; assumption).
      exfalso. apply (H3 path). reflexivity. }
  destruct H as [Hd Hc]. rewrite Hd, Hc, Hst, Hs. simpl.
  rewrite append_nil_r_s, andb_true_r. destruct s; split; reflexivity.
Qed.

Lemma mirrors_ret {A : Type} (a : A) : mirrors (ret a).
Proof. apply mirrors_silent; intros l; [reflexivity|constructor]. Qed.

Lemma mirrors_this : mirrors this.
Proof. apply mirrors_silent; intros l; [reflexivity|constructor]. Qed.

Lemma mirrors_modify (f : Logger -> Logger) :
  (forall l, logFileStream (f l) = logFileStream l) -> mirrors (modify f).
Proof. intros H. apply mirrors_silent; intros l; [apply H|constructor]. Qed.

Lemma mirrors_makeLog (line : string) : mirrors (makeLog line).
Proof.
  intros l s c Hs.
  destruct l as [en im pend name f st [act iv]]; simpl in Hs; subst st.
  destruct s as [dev bom].
  unfold_members; simpl. destruct en; simpl.
  - destruct im; simpl.
    + rewrite String.eqb_refl, andb_false_r. split; reflexivity.
    + rewrite append_nil_r_s, andb_true_r. split; reflexivity.
  - rewrite append_nil_r_s, andb_true_r. split; reflexivity.
Qed.

Lemma mirrors_flushMessages : mirrors flushMessages.
Proof.
  intros l s c Hs.
  destruct l as [en im pend name f st [act iv]]; simpl in Hs; subst st.
  destruct s as [dev bom].
  unfold_members; simpl. destruct pend as [|m ms]; simpl.
  - rewrite append_nil_r_s, andb_true_r. split; reflexivity.
  - rewrite String.eqb_refl, app_nil_r, andb_false_r.
    split; [|reflexivity].
    f_equal. f_equal. f_equal. apply (join_lines m ms).
Qed.

Lemma mirrors_step (o : Op) : keepsSink o = true -> mirrors (step o).
Proof.
  destruct o as [line|prefix message|prefix level message|fileName opened|enabled|msec| |];
    simpl; intros H; try discriminate H;
    unfold makeLogDescriptively, makeLogPrefixed, setLoggingEnabled, setFlushTime,
      timerTimeout, timerStart, timerStop, timerSetInterval;
    repeat first
      [ apply mirrors_makeLog
      | apply mirrors_flushMessages
      | apply mirrors_ret
      | apply mirrors_this
      | apply mirrors_modify; intros []; reflexivity
      | apply mirrors_bind; [|intros ?]
      | match goal with
        | |- mirrors (if ?b then _ else _) => destruct b
        end ].
Qed.

Lemma mirrors_run (os : list Op) : forallb keepsSink os = true -> mirrors (run os).
Proof.
  induction os as [|o os IH]; simpl; intros H.
  - apply mirrors_ret.
  - apply andb_true_iff in H. destruct H as [Ho Hos].
    apply mirrors_bind; [apply mirrors_step, Ho | intros _; apply IH, Hos].
Qed.

Lemma setLogFile_opened (l : Logger) (path : string) :
  path <> "" ->
  logFileName l <> path ->
  setLogFile path true l =
  (tt,
   set_logFileStream (Some (mkQTextStream path true))
     (set_logFile (Some (mkQFile path true)) (set_logFileName path l)),
   [FileOpened path;
    Queued (InvokeMakeLogPrefixed "logger"
              (join " " ["log file"; path; "opened for writing"]))]).
Proof.
  intros Hne Hn. unfold_members.
  destruct (String.eqb_spec (logFileName l) path) as [E|_]; [contradiction|].
  destruct (String.eqb_spec path "") as [E|_]; [contradiction|].
  reflexivity.
Qed.

(** X7.  After [setLogFile] has opened [path] (a new, non-empty name; the
    open succeeds), and for as long as [setLogFile] is not called again,
    the file holds exactly what subscribers were handed since: nothing
    while no line was delivered, otherwise the byte-order mark followed by
    the UTF-8 bytes of every delivered line, in order, each ended by a
    newline.  What the file held before the open is gone. *)
Theorem file_holds_the_lines_delivered_since_open :
  forall (l : Logger) (path c : string) (os : list Op),
    path <> "" ->
    logFileName l <> path ->
    forallb keepsSink os = true ->
    let es := effectsOf (setLogFile path true ;; run os) l in
    fileContent path c es = linesBytes true (deliveredLines es).
Proof.
  intros l path c os Hne Hn Hos es. subst es.
  rewrite effectsOf_bind.
  assert (Es : stateAfter (setLogFile path true) l =
               set_logFileStream (Some (mkQTextStream path true))
                 (set_logFile (Some (mkQFile path true)) (set_logFileName path l))).
  { unfold stateAfter. rewrite (setLogFile_opened l path Hne Hn). reflexivity. }
  assert (Ee : effectsOf (setLogFile path true) l =
               [FileOpened path;
                Queued (InvokeMakeLogPrefixed "logger"
                          (join " " ["log file"; path; "opened for writing"]))]).
  { unfold effectsOf. rewrite (setLogFile_opened l path Hne Hn). reflexivity. }
  rewrite Es, Ee, deliveredLines_app. simpl deliveredLines at 1. simpl app.
  simpl fileContent. rewrite String.eqb_refl.
  destruct (mirrors_run os Hos
              (set_logFileStream (Some (mkQTextStream path true))
                 (set_logFile (Some (mkQFile path true)) (set_logFileName path l)))
              (mkQTextStream path true) "" eq_refl) as [H _].
  simpl in H. exact H.
Qed.

Lemma file_holds_the_lines_delivered_since_open_witness :
  fileContent "a.log" "old"
    (effectsOf (setLogFile "a.log" true ;;
                run [MakeLog "one"; MakeLog " two "; FlushMessages])
       (mkLogger true false [] "" None None (mkQTimer true 1000)))
  = (byteOrderMark ++ "one" ++ nl ++ "two" ++ nl)%string.
Proof.
  assert (N1 : "a.log" <> "") by discriminate.
  assert (N2 : logFileName (mkLogger true false [] "" None None (mkQTimer true 1000))
               <> "a.log") by discriminate.
  rewrite (file_holds_the_lines_delivered_since_open
             (mkLogger true false [] "" None None (mkQTimer true 1000))
             "a.log" "old" [MakeLog "one"; MakeLog " two "; FlushMessages]
             N1 N2 eq_refl).
  reflexivity.
Defined.

(** ** Immediate mode *)

Lemma deliver_immediate (rs : list LogRequest) :
  forall l : Logger,
    loggingEnabled l = true -> immediateMode l = true ->
    signals (effectsOf (deliver rs) l) = map (fun r => EmitLogMessage (lineOf r)) rs /\
    pendingMessages (stateAfter (deliver rs) l) = pendingMessages l /\
    immediateMode (stateAfter (deliver rs) l) = true.
Proof.
  induction rs as [|r rs IH]; intros l He Hi.
  - repeat split; assumption.
  - rewrite effectsOf_deliver_cons, stateAfter_deliver_cons, signals_app.
    set (l1 := match logFileStream l with
               | Some s => set_logFileStream (Some (mkQTextStream (device s) false)) l
               | None => l
               end).
    assert (Es : stateAfter (dispatch r) l = l1).
    { unfold stateAfter. rewrite (dispatch_immediate r l He Hi). reflexivity. }
    assert (Ee : signals (effectsOf (dispatch r) l) = [EmitLogMessage (lineOf r)]).
    { unfold effectsOf. rewrite (dispatch_immediate r l He Hi). simpl.
      destruct (logFileStream l); reflexivity. }
    rewrite Es, Ee.
    assert (H1 : loggingEnabled l1 = true /\ immediateMode l1 = true /\
                 pendingMessages l1 = pendingMessages l).
    { subst l1. destruct (logFileStream l); repeat split; assumption. }
    destruct H1 as (He1 & Hi1 & Hp1).
    destruct (IH l1 He1 Hi1) as (Hs & Hp & Hm).
    rewrite Hs, Hp, Hm, Hp1.
    repeat split.
Qed.

(** X8.  In any state the calls can reach with logging enabled, after
    [setFlushTime] with [msec <= 0] every log request that is delivered
    goes to subscribers at once and alone: one [logMessage] signal per
    request, in order, never a batch; and nothing is kept in the buffer. *)
Theorem immediate_mode_delivers_each_line_alone :
  forall (enabled0 : bool) (os : list Op) (msec : Z) (rs : list LogRequest),
    let l := stateAfter (run os) (newLogger enabled0) in
    loggingEnabled l = true ->
    (msec <= 0)%Z ->
    let l1 := stateAfter (setFlushTime msec) l in
    signals (effectsOf (deliver rs) l1) = map (fun r => EmitLogMessage (lineOf r)) rs /\
    pendingMessages (stateAfter (deliver rs) l1) = [] /\
    immediateMode (stateAfter (deliver rs) l1) = true.
Proof.
  intros enabled0 os msec rs l He Hm l1.
  assert (Hinv : immediateEmpty l).
  { subst l. apply immediateEmpty_run. intros E; discriminate E. }
  destruct (setFlushTime_cases l msec Hinv) as (H0 & _).
  destruct (H0 Hm) as (_ & Hi & Hp & _).
  assert (He1 : loggingEnabled l1 = true).
  { subst l1. clear - He Hm. destruct l as [en im pend name f st [act iv]].
    simpl in He; subst en. unfold_members; simpl.
    destruct (Z.leb_spec msec 0); [|lia]. destruct im; simpl; [reflexivity|].
    destruct pend, st; reflexivity. }
  destruct (deliver_immediate rs l1 He1 Hi) as (Hs & Hp' & Hi').
  rewrite Hs, Hp', Hi'. repeat split. exact Hp.
Qed.

Lemma immediate_mode_delivers_each_line_alone_witness :
  signals (effectsOf (deliver [InvokeMakeLog "a"; InvokeMakeLogPrefixed "mpv" "b"])
             (stateAfter (setFlushTime 0)
                (stateAfter (run [SetLoggingEnabled true]) (newLogger false))))
  = [EmitLogMessage "a"; EmitLogMessage "[mpv] b"].
Proof.
  assert (H : (0 <= 0)%Z) by lia.
  exact (proj1 (immediate_mode_delivers_each_line_alone false [SetLoggingEnabled true] 0
                  [InvokeMakeLog "a"; InvokeMakeLogPrefixed "mpv" "b"] eq_refl H)).
Defined.

(** ** The life of the singleton *)

Lemma post_without_instance (enabled0 : bool) (r : LogRequest) (p : Process) :
  loggerInstance p = None -> loggerInstanceSetBefore p = true ->
  post enabled0 r p = p.
Proof.
  intros Hi Hf. unfold post, singleton. rewrite Hi, Hf. reflexivity.
Qed.

(** X9.  [singleton] makes the logger at most once in the life of the
    process.  With the two statics consistent (an instance implies the
    flag): the flag is set after the first call, and a second call returns
    the same object and changes nothing.  Once the instance has been
    destroyed, [singleton] returns null, every static log call is dropped
    and leaves the process exactly as it was, and constructing a [Logger]
    aborts. *)
Theorem singleton_is_made_at_most_once :
  forall (enabled0 : bool) (p : Process) (rs : list LogRequest),
    flagFollowsInstance p ->
    let p1 := snd (singleton enabled0 p) in
    let p2 := Logger_dtor p1 in
    loggerInstanceSetBefore p1 = true /\
    singleton enabled0 p1 = (fst (singleton enabled0 p), p1) /\
    singleton enabled0 p2 = (None, p2) /\
    fold_left (fun q r => post enabled0 r q) rs p2 = p2 /\
    Logger_ctor enabled0 p2 = None.
Proof.
  intros enabled0 p rs H p1 p2.
  assert (H1 : loggerInstanceSetBefore p1 = true /\
               singleton enabled0 p1 = (fst (singleton enabled0 p), p1)).
  { subst p1. unfold flagFollowsInstance in H.
    destruct p as [flag [l|] q o]; simpl in H.
    - rewrite H by discriminate. split; reflexivity.
    - destruct flag; split; reflexivity. }
  destruct H1 as [Hf Hs].
  assert (H2 : loggerInstance p2 = None /\ loggerInstanceSetBefore p2 = true).
  { subst p2. unfold Logger_dtor.
    destruct (loggerInstance p1) eqn:E; simpl; [split; [reflexivity|exact Hf]|].
    split; assumption. }
  destruct H2 as [Hi2 Hf2].
  split; [exact Hf|]. split; [exact Hs|]. split; [|split].
  - unfold singleton. rewrite Hi2, Hf2. reflexivity.
  - induction rs as [|r rs IH]; simpl; [reflexivity|].
    rewrite (post_without_instance enabled0 r p2 Hi2 Hf2). exact IH.
  - unfold Logger_ctor. rewrite Hf2. reflexivity.
Qed.

Lemma singleton_is_made_at_most_once_witness :
  let p2 := Logger_dtor (snd (singleton false processStart)) in
  flagFollowsInstance processStart /\
  fold_left (fun q r => post false r q) [InvokeMakeLog "late"] p2 = p2.
Proof.
  assert (H : flagFollowsInstance processStart).
  { unfold flagFollowsInstance, processStart; simpl. intros E. contradiction E. reflexivity. }
  split; [exact H|].
  pose proof (singleton_is_made_at_most_once false processStart [InvokeMakeLog "late"] H) as R.
  cbv zeta in R. destruct R as (_ & _ & _ & R & _). exact R.
Defined.

Lemma stdErrBytes_app (es1 es2 : list Effect) :
  stdErrBytes (es1 ++ es2) = (stdErrBytes es1 ++ stdErrBytes es2)%string.
Proof.
  unfold stdErrBytes. rewrite flat_map_app.
  generalize (flat_map (fun e => match e with StdErr b => [b] | _ => [] end) es1) as x.
  generalize (flat_map (fun e => match e with StdErr b => [b] | _ => [] end) es2) as y.
  intros y x. induction x as [|a x IH]; [reflexivity|].
  destruct x as [|b x].
  - simpl. destruct y; simpl; [rewrite append_nil_r_s|]; reflexivity.
  - change (String.concat "" ((a :: b :: x) ++ y))
      with (a ++ "" ++ String.concat "" ((b :: x) ++ y))%string.
    rewrite IH. simpl. rewrite append_assoc_s. reflexivity.
Qed.

(** X10.  The destructor does not flush.  Whatever is pending in the
    buffer and whatever is still queued when the logger is destroyed
    reaches nobody: through the destruction and the event loop's next turn
    no signal is emitted, no byte goes to a file or to standard error, and
    the instance and the queue are gone. *)
Theorem destruction_discards_what_is_pending :
  forall p : Process,
    let p' := processEvents (Logger_dtor p) in
    signals (observed p') = signals (observed p) /\
    fileWrites (observed p') = fileWrites (observed p) /\
    stdErrBytes (observed p') = stdErrBytes (observed p) /\
    loggerInstance p' = None /\
    eventQueue p' = [].
Proof.
  intros p p'. subst p'. unfold Logger_dtor, processEvents, call.
  destruct (loggerInstance p) as [l|] eqn:E; simpl; rewrite ?E; simpl.
  - rewrite signals_app, fileWrites_app, stdErrBytes_app.
    destruct (logFile l) as [[fp []]|]; simpl;
      rewrite ?app_nil_r, ?append_nil_r_s; repeat split; reflexivity.
  - repeat split; reflexivity.
Qed.

(** ** The message handler *)

(** X12.  A Qt message of one of the four other types leaves the process
    running.  With logging enabled in buffered mode and nothing else
    queued, once the owning context has delivered it the buffer ends with
    the line "[qt] <level>: <message>", trimmed, the level being debug,
    info, warn or crit by type; nothing is emitted on the way. *)
Theorem callback_line_reaches_the_buffer :
  forall (enabled0 : bool) (toLocal8Bit : string -> string) (type : QtMsgType)
         (msg : string) (p : Process) (l : Logger),
    type <> QtFatalMsg ->
    loggerInstance p = Some l ->
    loggingEnabled l = true ->
    immediateMode l = false ->
    eventQueue p = [] ->
    exists p1 : Process,
      loggerCallback enabled0 toLocal8Bit type msg p = Running p1 /\
      loggerInstance (processEvents p1) =
        Some (set_pendingMessages
                (pendingMessages l ++
                 [trimmed ("[qt] " ++ levelName type ++ ": " ++ msg)]) l) /\
      signals (observed (processEvents p1)) = signals (observed p).
Proof.
  intros enabled0 codec type msg p l Ht Hl He Hi Hq.
  exists (post enabled0 (InvokeMakeLogDescriptively "qt" (levelName type) msg) p).
  split; [destruct type; try reflexivity; contradiction Ht; reflexivity|].
  rewrite (post_existing enabled0 _ p l Hl), Hq.
  unfold processEvents, call.
  cbn [loggerInstance eventQueue observed loggerInstanceSetBefore app].
  rewrite (deliver_buffered _ l He Hi). simpl.
  rewrite !signals_app. simpl. rewrite !app_nil_r. split; reflexivity.
Qed.

Lemma callback_line_reaches_the_buffer_witness :
  let l := mkLogger true false ["m1"] "" None None (mkQTimer true 1000) in
  exists p1 : Process,
    loggerCallback false (fun s => s) QtWarningMsg "disk full " (mkProcess true (Some l) [] [])
    = Running p1 /\
    loggerInstance (processEvents p1) =
      Some (set_pendingMessages ["m1"; "[qt] warn: disk full"] l).
Proof.
  cbv zeta.
  assert (N : QtWarningMsg <> QtFatalMsg) by discriminate.
  destruct (callback_line_reaches_the_buffer false (fun s => s) QtWarningMsg "disk full "
              (mkProcess true (Some (mkLogger true false ["m1"] "" None None
                                       (mkQTimer true 1000))) [] [])
              (mkLogger true false ["m1"] "" None None (mkQTimer true 1000))
              N eq_refl eq_refl eq_refl eq_refl) as (p1 & H1 & H2 & _).
  exists p1. split; [exact H1|exact H2].
Defined.

(** ** The line builder *)

(** Induction over a [QVariant] and the values nested in it. *)
Lemma QVariant_nested_ind (P : QVariant -> Prop) :
  (forall entries, Forall (fun kv => P (snd kv)) entries -> P (VMap entries)) ->
  (forall items, Forall P items -> P (VList items)) ->
  (forall text, P (VString text)) ->
  P VOther ->
  forall a : QVariant, P a.
Proof.
  intros Hmap Hlist Hstring Hother.
  exact (fix go (a : QVariant) : P a :=
           match a with
           | VMap entries =>
               Hmap entries
                 ((fix each (es : list (string * QVariant))
                     : Forall (fun kv => P (snd kv)) es :=
                     match es with
                     | [] => Forall_nil _
                     | (key, value) :: es' =>
                         Forall_cons (key, value) (go value) (each es')
                     end) entries)
           | VList items =>
               Hlist items
                 ((fix each (vs : list QVariant) : Forall P vs :=
                     match vs with
                     | [] => Forall_nil _
                     | v :: vs' => Forall_cons v (go v) (each vs')
                     end) items)
           | VString text => Hstring text
           | VOther => Hother
           end).
Qed.

Lemma write_write (a b : string) (s : LogStream.t) :
  LogStream.write b (LogStream.write a s) = LogStream.write (a ++ b) s.
Proof. unfold LogStream.write. simpl. rewrite append_assoc_s. reflexivity. Qed.

Lemma write_nil (s : LogStream.t) : LogStream.write "" s = s.
Proof. destruct s. unfold LogStream.write. simpl. rewrite append_nil_r_s. reflexivity. Qed.

Lemma join_cons (sep x : string) (xs : list string) :
  join sep (x :: xs) =
  (x ++ match xs with [] => "" | _ :: _ => sep ++ join sep xs end)%string.
Proof. destruct xs; simpl; [rewrite append_nil_r_s|]; reflexivity. Qed.

Opaque quote.

Lemma shiftVariant_write :
  forall (a : QVariant) (s : LogStream.t),
    LogStream.shiftVariant a s = LogStream.write (render a) s.
Proof.
  induction a as [entries IH|items IH|text|] using QVariant_nested_ind; intros s.
  - simpl. unfold LogStream.shiftChars.
    assert (L : forall (count : Z) (s0 : LogStream.t),
               count = Z.of_nat (length entries) ->
               (fix loop (it : list (string * QVariant)) (count : Z) (s : LogStream.t)
                  {struct it} : LogStream.t :=
                  match it with
                  | [] => s
                  | (key, value) :: it' =>
                      let s1 := LogStream.write (quote ++ ":")
                                  (LogStream.write key (LogStream.write quote s)) in
                      let s2 := LogStream.shiftVariant value s1 in
                      let s3 := if (count >? 1)%Z then LogStream.write ", " s2 else s2 in
                      loop it' (count - 1)%Z s3
                  end) entries count s0 =
               LogStream.write
                 (join ", " (map (fun '(key, value) =>
                                    (quote ++ key ++ quote ++ ":" ++ render value)%string)
                               entries)) s0).
    { induction IH as [|[key value] es Hv _ IHes]; intros count s0 Hc.
      - simpl. rewrite write_nil. reflexivity.
      - simpl in Hv. cbn zeta. rewrite Hv, !write_write.
        rewrite (IHes (count - 1)%Z) by (simpl length in Hc; lia).
        simpl map. rewrite join_cons.
        destruct es as [|e es].
        + replace (count >? 1)%Z with false by (simpl in Hc; lia).
          simpl. rewrite write_nil, append_nil_r_s, ?append_assoc_s. reflexivity.
        + replace (count >? 1)%Z with true by (simpl length in Hc; lia).
          rewrite !write_write, !append_assoc_s. reflexivity. }
    rewrite (L _ _ eq_refl), !write_write. reflexivity.
  - simpl.
    assert (L : forall (rest : list QVariant) (i : Z) (s0 : LogStream.t),
               Forall (fun v => forall s, LogStream.shiftVariant v s =
                                          LogStream.write (render v) s) rest ->
               (i + Z.of_nat (length rest) = Z.of_nat (length items))%Z ->
               (fix loop (rest : list QVariant) (i : Z) (s : LogStream.t)
                  {struct rest} : LogStream.t :=
                  match rest with
                  | [] => s
                  | value :: rest' =>
                      let s1 := LogStream.shiftVariant value s in
                      let s2 := if (i <? Z.of_nat (length items) - 1)%Z
                                then LogStream.write ", " s1 else s1 in
                      loop rest' (i + 1)%Z s2
                  end) rest i s0 =
               LogStream.write (join ", " (map render rest)) s0).
    { intros rest i s0 Hr. revert i s0.
      induction Hr as [|v vs Hv _ IHvs]; intros i s0 Hc.
      - simpl. rewrite write_nil. reflexivity.
      - cbn zeta. rewrite Hv.
        rewrite (IHvs (i + 1)%Z) by (simpl length in Hc; lia).
        simpl map. rewrite join_cons.
        destruct vs as [|w vs].
        + replace (i <? Z.of_nat (length items) - 1)%Z with false
            by (simpl in Hc; lia).
          simpl. rewrite write_nil, append_nil_r_s. reflexivity.
        + replace (i <? Z.of_nat (length items) - 1)%Z with true
            by (simpl length in Hc; lia).
          rewrite !write_write. reflexivity. }
    rewrite (L items 0%Z _ IH) by lia. rewrite !write_write, ?append_assoc_s.
    reflexivity.
  - reflexivity.
  - reflexivity.
Qed.

Transparent quote.

(** X13.  Appending a [QVariant] to a line builder appends exactly its
    text in closed form and touches neither what the buffer held nor the
    prefix and level: a map is its entries, each the quoted key, a colon
    and the value's text, joined by a comma and a space, in braces; a list
    is its items' texts joined the same way, in brackets; a value with a
    string form is that string, bare; anything else is
    "(unserializable)".  The empty map and the empty list give the bare
    pair of braces or brackets. *)
Theorem shiftVariant_appends_render :
  forall (a : QVariant) (s : LogStream.t),
    LogStream.buffer (LogStream.shiftVariant a s) = (LogStream.buffer s ++ render a)%string /\
    LogStream.prefix (LogStream.shiftVariant a s) = LogStream.prefix s /\
    LogStream.level (LogStream.shiftVariant a s) = LogStream.level s /\
    render (VMap []) = "{}" /\
    render (VList []) = "[]".
Proof.
  intros a s. rewrite shiftVariant_write. repeat split; reflexivity.
Qed.

Lemma shift_appends (f : Fragment) (s : LogStream.t) :
  shift f s = LogStream.write (fragmentText f) s.
Proof. destruct f; simpl; [reflexivity|reflexivity|apply shiftVariant_write]. Qed.

Lemma concat_nil_cons (x : string) (xs : list string) :
  String.concat "" (x :: xs) = (x ++ String.concat "" xs)%string.
Proof. destruct xs; simpl; [rewrite append_nil_r_s|]; reflexivity. Qed.

Lemma shift_all (frags : list Fragment) :
  forall s : LogStream.t,
    fold_left (fun s f => shift f s) frags s =
    LogStream.write (String.concat "" (map fragmentText frags)) s.
Proof.
  induction frags as [|f frags IH]; intros s.
  - simpl. rewrite write_nil. reflexivity.
  - simpl fold_left. rewrite IH, shift_appends, write_write.
    simpl map. rewrite concat_nil_cons. reflexivity.
Qed.

(** X14.  A line builder made with [prefix] and [level], given any
    sequence of fragments (C strings, strings, variants), holds the
    fragments' texts one after another.  Its destructor submits nothing
    when that text is empty, and otherwise makes exactly one static log
    call: the plain text without prefix and level, "[prefix] text" with a
    prefix only, "[prefix] level: text" whenever a level is given (with an
    empty prefix too); with an instance alive the call queues one request,
    whose line is that decorated text, trimmed. *)
Theorem line_builder_submits_its_text_once :
  forall (enabled0 : bool) (prefix level : string) (frags : list Fragment) (p : Process),
    let s := fold_left (fun s f => shift f s) frags (LogStream.new prefix level) in
    let text := String.concat "" (map fragmentText frags) in
    LogStream.buffer s = text /\
    (text = "" -> LogStream_dtor enabled0 s p = p) /\
    (text <> "" ->
     exists r : LogRequest,
       LogStream_dtor enabled0 s p = post enabled0 r p /\
       lineOf r = trimmed (decorated prefix level text) /\
       (forall l, loggerInstance p = Some l ->
                  eventQueue (LogStream_dtor enabled0 s p) = eventQueue p ++ [r])).
Proof.
  intros enabled0 prefix level frags p s text.
  assert (Es : s = LogStream.mk text prefix level).
  { subst s text. rewrite shift_all. reflexivity. }
  rewrite Es. split; [reflexivity|]. split.
  - intros H. unfold LogStream_dtor. simpl. rewrite H. reflexivity.
  - intros H. unfold LogStream_dtor, decorated. simpl.
    destruct (String.eqb_spec text "") as [E|_]; [contradiction|].
    destruct (String.eqb prefix ""), (String.eqb level ""); simpl;
      eexists; (split; [reflexivity|]); (split; [reflexivity|]);
      intros l Hl; unfold log, log_prefix, log_prefix_level;
      rewrite (post_existing enabled0 _ p l Hl); reflexivity.
Qed.

(** ** Acceptance is decided at delivery *)

Lemma deliver_disabled (rs : list LogRequest) (l : Logger) :
  loggingEnabled l = false -> deliver rs l = (tt, l, []).
Proof.
  intros H. induction rs as [|r rs IH]; [reflexivity|].
  simpl. unfold bind.
  assert (D : dispatch r l = (tt, l, [])).
  { destruct r; unfold_members; rewrite H; reflexivity. }
  rewrite D, IH. reflexivity.
Qed.

Lemma deliveredLines_Queued (rs : list LogRequest) : deliveredLines (map Queued rs) = [].
Proof. induction rs; simpl; auto. Qed.

(** X15.  Whether a log call is accepted is decided when the owning
    context delivers it, not when it is made.  Log calls made while
    logging is enabled are lost when [setLoggingEnabled(false)] runs
    before they are delivered: subscribers get what was pending and the
    "disabling logging" line, and none of the calls' lines, which are not
    kept either. *)
Theorem calls_overtaken_by_disable_are_dropped :
  forall (enabled0 : bool) (rs : list LogRequest) (p : Process) (l : Logger),
    loggerInstance p = Some l ->
    loggingEnabled l = true ->
    eventQueue p = [] ->
    let p1 := processEvents (call (setLoggingEnabled false)
                               (fold_left (fun q r => post enabled0 r q) rs p)) in
    loggerInstance p1 = Some (stateAfter (setLoggingEnabled false) l) /\
    eventQueue p1 = [] /\
    observed p1 = observed p ++ map Queued rs ++ effectsOf (setLoggingEnabled false) l /\
    deliveredLines (observed p1) =
      deliveredLines (observed p) ++
      (if immediateMode l
       then "[logger] disabling logging" :: pendingMessages l
       else pendingMessages l ++ ["[logger] disabling logging"]) /\
    pendingMessages (stateAfter (setLoggingEnabled false) l) = [].
Proof.
  intros enabled0 rs p l Hl He Hq p1.
  assert (F : queuedRequests (effectsOf (setLoggingEnabled false) l) = [] /\
              loggingEnabled (stateAfter (setLoggingEnabled false) l) = false /\
              pendingMessages (stateAfter (setLoggingEnabled false) l) = [] /\
              deliveredLines (effectsOf (setLoggingEnabled false) l) =
                (if immediateMode l
                 then "[logger] disabling logging" :: pendingMessages l
                 else pendingMessages l ++ ["[logger] disabling logging"])).
  { clear - He. destruct l as [en im pend name f st [act iv]]; simpl in He; subst en.
    destruct im, pend, st; simpl; rewrite ?app_nil_r; repeat split; reflexivity. }
  destruct F as (Fq & Fe & Fp & Fd).
  assert (E1 : p1 = mkProcess (loggerInstanceSetBefore p)
                      (Some (stateAfter (setLoggingEnabled false) l)) []
                      (observed p ++ map Queued rs ++
                       effectsOf (setLoggingEnabled false) l)).
  { subst p1. rewrite (post_all_existing enabled0 rs p l Hl), Hq.
    unfold call at 1. cbn [loggerInstance eventQueue observed loggerInstanceSetBefore].
    rewrite (run_unit (setLoggingEnabled false) l), Fq.
    unfold processEvents, call.
    cbn [loggerInstance eventQueue observed loggerInstanceSetBefore].
    rewrite app_nil_r. simpl app.
    rewrite (deliver_disabled rs _ Fe). simpl.
    rewrite !app_nil_r, <- app_assoc. reflexivity. }
  rewrite E1. cbn [loggerInstance eventQueue observed].
  repeat split; try assumption.
  rewrite !deliveredLines_app, deliveredLines_Queued, Fd. reflexivity.
Qed.

Lemma calls_overtaken_by_disable_are_dropped_witness :
  let l := mkLogger true false ["m1"] "" None None (mkQTimer true 1000) in
  let p := mkProcess true (Some l) [] [] in
  deliveredLines
    (observed (processEvents (call (setLoggingEnabled false)
                                (fold_left (fun q r => post false r q)
                                   [InvokeMakeLog "late"] p))))
  = ["m1"; "[logger] disabling logging"].
Proof.
  cbv zeta.
  pose proof (calls_overtaken_by_disable_are_dropped false [InvokeMakeLog "late"]
                (mkProcess true
                   (Some (mkLogger true false ["m1"] "" None None (mkQTimer true 1000)))
                   [] [])
                (mkLogger true false ["m1"] "" None None (mkQTimer true 1000))
                eq_refl eq_refl eq_refl) as R.
  cbv zeta in R. destruct R as (_ & _ & _ & R & _). exact R.
Defined.

(** X16.  The other way round: log calls made while logging is disabled
    are accepted when [setLoggingEnabled(true)] runs before they are
    delivered.  In buffered mode the buffer then holds what it held, the
    "enabling logging" line, and the calls' lines in call order; nothing
    has been emitted, and the timer runs. *)
Theorem calls_overtaken_by_enable_are_accepted :
  forall (enabled0 : bool) (rs : list LogRequest) (p : Process) (l : Logger),
    loggerInstance p = Some l ->
    loggingEnabled l = false ->
    immediateMode l = false ->
    eventQueue p = [] ->
    let p1 := processEvents (call (setLoggingEnabled true)
                               (fold_left (fun q r => post enabled0 r q) rs p)) in
    exists l1 : Logger,
      loggerInstance p1 = Some l1 /\
      pendingMessages l1 =
        pendingMessages l ++ "[logger] enabling logging" :: map lineOf rs /\
      loggingEnabled l1 = true /\
      isActive (flushTimer l1) = true /\
      signals (observed p1) = signals (observed p).
Proof.
  intros enabled0 rs p l Hl He Hi Hq p1.
  set (l' := mkLogger true false (pendingMessages l ++ ["[logger] enabling logging"])
               (logFileName l) (logFile l) (logFileStream l)
               (mkQTimer true (interval (flushTimer l)))).
  assert (F : setLoggingEnabled true l = (tt, l', [])).
  { subst l'. clear - He Hi.
    destruct l as [en im pend name f st [act iv]]; simpl in *; subst en im.
    reflexivity. }
  assert (E1 : p1 = mkProcess (loggerInstanceSetBefore p)
                      (Some (set_pendingMessages
                               (pendingMessages l' ++ map lineOf rs) l')) []
                      (observed p ++ map Queued rs)).
  { subst p1. rewrite (post_all_existing enabled0 rs p l Hl), Hq.
    unfold call at 1. cbn [loggerInstance eventQueue observed loggerInstanceSetBefore].
    rewrite F. unfold processEvents, call.
    cbn [loggerInstance eventQueue observed loggerInstanceSetBefore queuedRequests flat_map].
    rewrite !app_nil_r. simpl app.
    rewrite (deliver_buffered rs l' eq_refl eq_refl). simpl.
    rewrite !app_nil_r. reflexivity. }
  rewrite E1. eexists. split; [reflexivity|]. simpl.
  rewrite <- app_assoc, signals_app, signals_Queued, app_nil_r. repeat split.
Qed.

Lemma calls_overtaken_by_enable_are_accepted_witness :
  let l := newLogger false in
  let p := mkProcess true (Some l) [] [] in
  exists l1 : Logger,
    loggerInstance
      (processEvents (call (setLoggingEnabled true)
                        (fold_left (fun q r => post false r q)
                           [InvokeMakeLog "early"] p))) = Some l1 /\
    pendingMessages l1 = ["[logger] enabling logging"; "early"].
Proof.
  cbv zeta.
  destruct (calls_overtaken_by_enable_are_accepted false [InvokeMakeLog "early"]
              (mkProcess true (Some (newLogger false)) [] []) (newLogger false)
              eq_refl eq_refl eq_refl eq_refl) as (l1 & H1 & H2 & _).
  exists l1. split; [exact H1|exact H2].
Defined.

(** ** Flushing on a switch, in full: subscribers and the file *)

(** C3.  With logging enabled, [setLoggingEnabled(false)] emits the
    "disabling logging" line and flushes all that was pending: subscribers
    get, in order, every pending line and the lifecycle line (in buffered
    mode as one batch ending with that line; in immediate mode the line on
    its own, then a batch of what was pending, if anything).  Afterwards
    the buffer is empty, the timer is stopped and logging is disabled.  The
    state left does not depend on what was pending, and whatever calls
    follow (re-enabling among them) deliver exactly the lines accepted by
    those calls, once each: nothing flushed by the switch comes again.
    With a file sink configured the same lines go to its file, and to no
    other: the writes are exactly those of the line and of the batch, the
    file gains the byte-order mark if the stream had written nothing yet,
    then every one of these lines ended by a newline, and the stream stays
    configured; with no sink nothing is written. *)
Theorem disable_flushes_and_never_replays :
  forall l : Logger,
    loggingEnabled l = true ->
    let l' := stateAfter (setLoggingEnabled false) l in
    let es := effectsOf (setLoggingEnabled false) l in
    signals es =
      (if immediateMode l
       then EmitLogMessage "[logger] disabling logging" ::
            match pendingMessages l with
            | [] => []
            | _ :: _ => [EmitLogMessageBuffer (pendingMessages l)]
            end
       else [EmitLogMessageBuffer (pendingMessages l ++ ["[logger] disabling logging"])]) /\
    deliveredLines es =
      (if immediateMode l
       then "[logger] disabling logging" :: pendingMessages l
       else pendingMessages l ++ ["[logger] disabling logging"]) /\
    pendingMessages l' = [] /\
    isActive (flushTimer l') = false /\
    loggingEnabled l' = false /\
    (forall old : list string,
        stateAfter (setLoggingEnabled false) (set_pendingMessages old l) = l') /\
    (forall os : list Op,
        deliveredLines (effectsOf (run os) l') ++ pendingMessages (stateAfter (run os) l')
        = acceptedLines os l') /\
    (forall s : QTextStream,
        logFileStream l = Some s ->
        fileWrites es =
          (if immediateMode l
           then FileWritten (device s)
                  (streamBytes s ("[logger] disabling logging" ++ nl)) ::
                match pendingMessages l with
                | [] => []
                | _ :: _ =>
                    [FileWritten (device s) (toUtf8 (join nl (pendingMessages l) ++ nl))]
                end
           else [FileWritten (device s)
                   (streamBytes s
                      (join nl (pendingMessages l ++ ["[logger] disabling logging"])
                       ++ nl))]) /\
        (forall c : string,
            fileContent (device s) c es =
            (c ++ linesBytes (generateByteOrderMark s)
                    (if immediateMode l
                     then "[logger] disabling logging" :: pendingMessages l
                     else pendingMessages l ++ ["[logger] disabling logging"]))%string) /\
        logFileStream l' = Some (mkQTextStream (device s) false)) /\
    (logFileStream l = None -> fileWrites es = [] /\ logFileStream l' = None).
Proof.
  intros l He l' es.
  destruct (setLoggingEnabled_false_cases l He) as (H1 & H2 & H3 & H4 & H5 & H6 & H7).
  fold l' in H3, H4, H5, H6, H7. fold es in H1, H2.
  split; [exact H1|]. split; [exact H2|]. split; [exact H3|]. split; [exact H4|].
  split; [exact H5|]. split; [exact H6|]. split; [exact H7|]. split.
  - intros s Hs. split; [|split].
    + subst es. clear - He Hs.
      destruct l as [en im pend name f st [act iv]]; simpl in He, Hs; subst en st.
      destruct s as [dev bom]. destruct im, pend; reflexivity.
    + intros c.
      destruct (mirrors_step (SetLoggingEnabled false) eq_refl l s c Hs) as [Hc _].
      simpl step in Hc. fold es in Hc. rewrite Hc, H2. reflexivity.
    + destruct (mirrors_step (SetLoggingEnabled false) eq_refl l s "" Hs) as [_ Hst].
      simpl step in Hst. fold es in Hst. fold l' in Hst. rewrite Hst, H2.
      f_equal. f_equal. destruct (immediateMode l), (pendingMessages l);
        simpl; apply andb_false_r.
  - intros Hs. subst es l'. clear - He Hs.
    destruct l as [en im pend name f st [act iv]]; simpl in He, Hs; subst en st.
    destruct im, pend; split; reflexivity.
Qed.

Lemma disable_flushes_and_never_replays_witness :
  let l := mkLogger true false ["m1"; "m2"] "a.log" (Some (mkQFile "a.log" true))
             (Some (mkQTextStream "a.log" true)) (mkQTimer true 1000) in
  loggingEnabled l = true /\
  signals (effectsOf (setLoggingEnabled false) l) =
    [EmitLogMessageBuffer ["m1"; "m2"; "[logger] disabling logging"]] /\
  fileContent "a.log" "" (effectsOf (setLoggingEnabled false) l) =
    (byteOrderMark ++ "m1" ++ nl ++ "m2" ++ nl ++ "[logger] disabling logging" ++ nl)%string.
Proof.
  cbv zeta. split; [reflexivity|].
  pose proof (disable_flushes_and_never_replays
                (mkLogger true false ["m1"; "m2"] "a.log" (Some (mkQFile "a.log" true))
                   (Some (mkQTextStream "a.log" true)) (mkQTimer true 1000))
                eq_refl) as R.
  cbv zeta in R. destruct R as (R1 & _ & _ & _ & _ & _ & _ & R8 & _).
  split; [exact R1|].
  destruct (R8 (mkQTextStream "a.log" true) eq_refl) as (_ & Rc & _).
  exact (Rc "").
Defined.

(** C4.  In every state [l] the logger can be in (the one the constructor
    leaves, after any sequence of calls) and for every [msec]:
    with [msec <= 0], [setFlushTime] stops the timer, hands every pending
    line to subscribers in one batch (nothing when nothing is pending),
    leaves the buffer empty and sets immediate mode;
    with [msec > 0] it sets buffered mode, keeps the buffer as it is, emits
    nothing and starts the timer with interval [max 100 msec], so any
    request of at most 100 ms, 50 among them, leaves the very state a
    request of 100 leaves.  In both cases the lines delivered followed by
    the lines still pending are the lines that were pending.
    The flush at [msec <= 0] reaches the file too: with a sink configured
    the one write is the joined batch and its newline (after the byte-order
    mark if the stream had written nothing yet), so the file gains every
    pending line ended by a newline, and nothing when nothing was pending;
    with no sink nothing is written.  With [msec > 0] there is no effect
    at all, so no write. *)
Theorem setFlushTime_modes :
  forall (enabled0 : bool) (os : list Op) (msec : Z),
    let l := stateAfter (run os) (newLogger enabled0) in
    let l' := stateAfter (setFlushTime msec) l in
    let es := effectsOf (setFlushTime msec) l in
    ((msec <= 0)%Z ->
       isActive (flushTimer l') = false /\
       immediateMode l' = true /\
       pendingMessages l' = [] /\
       signals es = match pendingMessages l with
                    | [] => []
                    | _ :: _ => [EmitLogMessageBuffer (pendingMessages l)]
                    end) /\
    ((msec > 0)%Z ->
       immediateMode l' = false /\
       flushTimer l' = mkQTimer true (Z.max 100 msec) /\
       pendingMessages l' = pendingMessages l /\
       es = [] /\
       ((msec <= 100)%Z -> setFlushTime msec l = setFlushTime 100 l)) /\
    setFlushTime 50 l = setFlushTime 100 l /\
    deliveredLines es ++ pendingMessages l' = pendingMessages l /\
    ((msec <= 0)%Z ->
       (forall s : QTextStream,
           logFileStream l = Some s ->
           fileWrites es =
             match pendingMessages l with
             | [] => []
             | _ :: _ =>
                 [FileWritten (device s)
                    (streamBytes s (join nl (pendingMessages l) ++ nl))]
             end /\
           (forall c : string,
               fileContent (device s) c es =
               (c ++ linesBytes (generateByteOrderMark s) (pendingMessages l))%string) /\
           logFileStream l' =
             Some (mkQTextStream (device s)
                     (generateByteOrderMark s && isNil (pendingMessages l)))) /\
       (logFileStream l = None -> fileWrites es = [] /\ logFileStream l' = None)).
Proof.
  intros enabled0 os msec l.
  assert (Hinv : immediateEmpty l).
  { subst l. apply immediateEmpty_run. intros E; discriminate E. }
  generalize dependent l. intros l Hinv l' es.
  destruct (setFlushTime_cases l msec Hinv) as (H1 & H2 & H3 & H4).
  fold l' in H1, H2, H4. fold es in H1, H2, H4.
  split; [exact H1|]. split; [exact H2|]. split; [exact H3|]. split; [exact H4|].
  intros Hm. destruct (H1 Hm) as (_ & _ & Hp & _).
  assert (Hd : deliveredLines es = pendingMessages l).
  { rewrite Hp, app_nil_r in H4. exact H4. }
  split.
  - intros s Hs. split; [|split].
    + subst es. clear - Hm Hs Hinv. unfold immediateEmpty in Hinv.
      destruct l as [en im pend name f st [act iv]]; simpl in Hs, Hinv; subst st.
      destruct s as [dev bom]. unfold_members; simpl.
      destruct (Z.leb_spec msec 0); [|lia]. destruct im; simpl.
      * rewrite (Hinv eq_refl). reflexivity.
      * destruct pend; reflexivity.
    + intros c.
      destruct (mirrors_step (SetFlushTime msec) eq_refl l s c Hs) as [Hc _].
      simpl step in Hc. fold es in Hc. rewrite Hc, Hd. reflexivity.
    + destruct (mirrors_step (SetFlushTime msec) eq_refl l s "" Hs) as [_ Hst].
      simpl step in Hst. fold es in Hst. fold l' in Hst. rewrite Hst, Hd. reflexivity.
  - intros Hs. subst es l'. clear - Hm Hs.
    destruct l as [en im pend name f st [act iv]]; simpl in Hs; subst st.
    unfold_members; simpl.
    destruct (Z.leb_spec msec 0); [|lia]. destruct im; simpl.
    + split; reflexivity.
    + destruct pend; split; reflexivity.
Qed.

Lemma setFlushTime_modes_witness :
  let l := stateAfter (run [SetLoggingEnabled true; SetLogFile "a.log" true;
                            MakeLog "m1"; MakeLog "m2"])
                      (newLogger false) in
  (0 <= 0)%Z /\
  signals (effectsOf (setFlushTime 0) l) =
    [EmitLogMessageBuffer ["[logger] enabling logging"; "m1"; "m2"]] /\
  fileContent "a.log" "" (effectsOf (setFlushTime 0) l) =
    (byteOrderMark ++ "[logger] enabling logging" ++ nl ++ "m1" ++ nl ++ "m2" ++ nl)%string.
Proof.
  assert (H : (0 <= 0)%Z) by lia.
  split; [exact H|].
  pose proof (setFlushTime_modes false
                [SetLoggingEnabled true; SetLogFile "a.log" true; MakeLog "m1"; MakeLog "m2"]
                0) as R.
  cbv zeta in R. destruct R as (R1 & _ & _ & _ & R5).
  destruct (R1 H) as (_ & _ & _ & Rs).
  split; [exact Rs|].
  destruct (R5 H) as (Rf & _).
  destruct (Rf (mkQTextStream "a.log" true) eq_refl) as (_ & Rc & _).
  exact (Rc "").
Defined.

(** What becomes of the closure line in buffered mode: it waits in the
    buffer, and when "a.log" is opened again the next flush writes it
    there, after the sink it announced as closed has been released. *)
Lemma closure_line_lands_in_a_later_sink :
  let p0 := snd (singleton false (mkProcess false None [] [])) in
  let p := call flushMessages
             (processEvents (call (setLogFile "a.log" true)
               (processEvents (call (setLogFile "" false)
                 (call flushMessages
                   (processEvents (call (setLogFile "a.log" true)
                     (call (setLoggingEnabled true) p0)))))))) in
  fileContent "a.log" "" (observed p) =
    (byteOrderMark ++ "[logger] log file closed" ++ nl
                   ++ "[logger] log file a.log opened for writing" ++ nl)%string.
Proof. reflexivity. Qed.
